(** * number-converter-hook: [useConverter]

    A shallow embedding of [src/useConverter.ts] and the properties of its
    two methods, [toString] (number to locale-styled text) and [toNumber]
    (text to number).

    Conventions of the embedding.

    - A JavaScript string is a [list ascii] (type [str]); only code units
      below 256 are represented.
    - A JavaScript Number is identified with the data that the host's
      number-to-string conversion computes for it: a sign, the shortest
      digit sequence [s] that identifies the value, and the decimal point
      position [n] (value [0.s * 10^n]).  Every finite double has exactly one
      such canonical triple; the model also contains triples that no double
      has (more than 17 digits, huge exponents), so a statement proved for
      every canonical triple holds for every double.  Converting a string to
      a number is exact in the model; on the strings that [toNumber] builds
      from a [toString] output this agrees with the host, whose rounding maps
      the shortest digit sequence of a double back to that double.
    - An [Options] value stands for the merged record
      [{ ...defaultOptions, ...options }] with all three fields present and
      separators of length one.
    - An abrupt completion (a thrown [TypeError]) is the [Throw] constructor
      of [completion]. *)

From Stdlib Require Import Ascii String List ZArith Lia Bool Arith.
From Stdlib Require DecimalString.
Import ListNotations.

(* [length] and [++] are the list operations throughout. *)
Abbreviation length := Datatypes.length.

Local Open Scope list_scope.
Local Open Scope char_scope.

(** ** Strings *)

Definition str := list ascii.

Definition chars (s : String.string) : str := String.list_ascii_of_string s.
Arguments chars s%_string.

Fixpoint takeWhile (p : ascii -> bool) (s : str) : str :=
  match s with
  | c :: s' => if p c then c :: takeWhile p s' else []
  | [] => []
  end.

Fixpoint dropWhile (p : ascii -> bool) (s : str) : str :=
  match s with
  | c :: s' => if p c then dropWhile p s' else s
  | [] => []
  end.

Definition str_eqb (a b : str) : bool :=
  if list_eq_dec ascii_dec a b then true else false.

(** ** Character classes *)

Definition code (c : ascii) : nat := nat_of_ascii c.

Definition inRange (lo hi : nat) (c : ascii) : bool :=
  ((lo <=? code c) && (code c <=? hi))%nat.

(** [[0-9]] and [\d]. *)
Definition isDigit (c : ascii) : bool := inRange 48 57 c.

(** [\w]: [[A-Za-z0-9_]]. *)
Definition isWord (c : ascii) : bool :=
  inRange 65 90 c || inRange 97 122 c || isDigit c || (c =? "_").

(** [\s], and the characters that the host strips around a numeric string:
    TAB, LF, VT, FF, CR, SP and NBSP (the members below 256). *)
Definition isWhiteSpace (c : ascii) : bool :=
  inRange 9 13 c || (code c =? 32)%nat || (code c =? 160)%nat.

Definition anyChar (c : ascii) : bool := true.
Definition noChar (c : ascii) : bool := false.
Definition oneOf (s : str) (c : ascii) : bool := existsb (Ascii.eqb c) s.
Definition complement (p : ascii -> bool) (c : ascii) : bool := negb (p c).
Definition union (p q : ascii -> bool) (c : ascii) : bool := p c || q c.

(** ** Regular expressions

    The fragment of the pattern language that the three patterns of the
    source can denote: sequences of quantified character classes, the word
    boundary assertions, and capture groups without nesting. *)

Inductive quantifier :=
| Once
| Optional            (* ?   *)
| ZeroOrMore          (* *   *)
| Exactly (n : nat).  (* {n} *)

Inductive term :=
| Chars (cls : ascii -> bool) (q : quantifier)
| WordBoundary (negated : bool).   (* \b and \B *)

Inductive piece :=
| Bare (t : term)
| Capture (ts : list term).

Definition RegExp := list piece.

(** The outcome of one match attempt: the matched text, the captures in
    order, and the input left after the match. *)
Record MatchResult := {
  matched : str;
  captures : list str;
  remaining : str
}.

Section Matcher.
Variable R : Type.

(** A continuation receives the text taken by the term, the character
    before the new position and the rest of the input. *)
Definition cont := str -> option ascii -> str -> option R.

Definition orElse (a : option R) (b : option R) : option R :=
  match a with Some r => Some r | None => b end.

(** Greedy [*]: take one more character if possible, fall back to
    stopping here when the continuation fails. *)
Fixpoint zeroOrMore (cls : ascii -> bool) (s taken : str)
         (prev : option ascii) (k : cont) : option R :=
  match s with
  | c :: s' =>
      if cls c
      then orElse (zeroOrMore cls s' (taken ++ [c]) (Some c) k) (k taken prev s)
      else k taken prev s
  | [] => k taken prev s
  end.

Fixpoint exactly (n : nat) (cls : ascii -> bool) (s taken : str)
         (prev : option ascii) (k : cont) : option R :=
  match n with
  | O => k taken prev s
  | S n' =>
      match s with
      | c :: s' => if cls c then exactly n' cls s' (taken ++ [c]) (Some c) k else None
      | [] => None
      end
  end.

Definition isWordAt (c : option ascii) : bool :=
  match c with Some c => isWord c | None => false end.

Definition matchTerm (t : term) (prev : option ascii) (s : str) (k : cont)
  : option R :=
  match t with
  | Chars cls Once =>
      match s with
      | c :: s' => if cls c then k [c] (Some c) s' else None
      | [] => None
      end
  | Chars cls Optional =>
      match s with
      | c :: s' => if cls c then orElse (k [c] (Some c) s') (k [] prev s) else k [] prev s
      | [] => k [] prev s
      end
  | Chars cls ZeroOrMore => zeroOrMore cls s [] prev k
  | Chars cls (Exactly n) => exactly n cls s [] prev k
  | WordBoundary negated =>
      let atBoundary := xorb (isWordAt prev) (isWordAt (hd_error s)) in
      if xorb atBoundary negated then k [] prev s else None
  end.

Fixpoint matchTerms (ts : list term) (prev : option ascii) (s taken : str)
         (k : cont) : option R :=
  match ts with
  | [] => k taken prev s
  | t :: ts' =>
      matchTerm t prev s
        (fun m prev' s' => matchTerms ts' prev' s' (taken ++ m) k)
  end.

Fixpoint matchPieces (ps : RegExp) (prev : option ascii) (s whole : str)
         (caps : list str) (k : str -> list str -> str -> option R)
  : option R :=
  match ps with
  | [] => k whole caps s
  | Bare t :: ps' =>
      matchTerm t prev s
        (fun m prev' s' => matchPieces ps' prev' s' (whole ++ m) caps k)
  | Capture ts :: ps' =>
      matchTerms ts prev s []
        (fun m prev' s' => matchPieces ps' prev' s' (whole ++ m) (caps ++ [m]) k)
  end.
End Matcher.

(** One attempt to match [re] at the current position. *)
Definition execAt (re : RegExp) (prev : option ascii) (s : str)
  : option MatchResult :=
  matchPieces MatchResult re prev s [] []
    (fun whole caps rest =>
       Some {| matched := whole; captures := caps; remaining := rest |}).

(** [s.match(re)] for a pattern without the global flag: the first position,
    from the left, at which the pattern matches; [None] is [null].  The
    element 0 of the resulting array is [matched], the elements from 1 on are
    [captures]. *)
Fixpoint searchFrom (re : RegExp) (prev : option ascii) (s : str)
  : option MatchResult :=
  match execAt re prev s with
  | Some r => Some r
  | None =>
      match s with
      | c :: s' => searchFrom re (Some c) s'
      | [] => None
      end
  end.

Definition String_match (s : str) (re : RegExp) : option MatchResult :=
  searchFrom re None s.

(** [s.replace(re, replacement)] for a pattern with the global flag: every
    match, left to right and without overlap, is replaced; after an empty
    match the next character is copied and the scan moves on.  [fuel] bounds
    the number of scan steps; each step consumes at least one character. *)
Fixpoint replaceFrom (fuel : nat) (re : RegExp) (replacement : MatchResult -> str)
         (prev : option ascii) (s : str) : str :=
  match fuel with
  | O => s
  | S fuel' =>
      let copyOne :=
        match s with
        | c :: s' => c :: replaceFrom fuel' re replacement (Some c) s'
        | [] => []
        end in
      match execAt re prev s with
      | Some r =>
          match matched r with
          | [] => replacement r ++ copyOne
          | _ :: _ =>
              replacement r
                ++ replaceFrom fuel' re replacement (Some (last (matched r) " ")) (remaining r)
          end
      | None => copyOne
      end
  end.

Definition String_replaceAll (s : str) (re : RegExp) (replacement : MatchResult -> str)
  : str :=
  replaceFrom (S (length s)) re replacement None s.

(** [s.replace(pattern, replacement)] for a one-character string pattern and
    a one-character replacement: only the first occurrence is replaced. *)
Fixpoint String_replaceChar (s : str) (pattern replacement : ascii) : str :=
  match s with
  | c :: s' =>
      if c =? pattern then replacement :: s'
      else c :: String_replaceChar s' pattern replacement
  | [] => []
  end.

(** [s.startsWith(c)] and [s.slice(1)]. *)
Definition String_startsWith (s : str) (c : ascii) : bool :=
  match s with
  | x :: _ => x =? c
  | [] => false
  end.

Definition String_slice1 (s : str) : str := tl s.

(** [s.split('').reverse().join('')]. *)
Definition String_reverse (s : str) : str := rev s.

(** ** Numbers

    [Finite negative digits n] is the value [0.digits * 10^n], negated when
    [negative]; it is canonical when [digits] is a non-empty digit sequence
    that neither starts nor ends with a zero. *)

Inductive number :=
| NaN
| Infinity (negative : bool)
| Zero (negative : bool)
| Finite (negative : bool) (digits : str) (n : Z).

Definition canonical (x : number) : bool :=
  match x with
  | Finite _ digits _ =>
      forallb isDigit digits
      && negb (hd "0" digits =? "0")
      && negb (last digits "0" =? "0")
  | _ => true
  end.

Definition isFinite (x : number) : bool :=
  match x with
  | Zero _ | Finite _ _ _ => true
  | NaN | Infinity _ => false
  end.

(** [a === b] on numbers: NaN differs from everything, the two zeros are
    equal. *)
Definition strictEquals (a b : number) : bool :=
  match a, b with
  | Zero _, Zero _ => true
  | Infinity s, Infinity t => Bool.eqb s t
  | Finite s ds n, Finite t es m => Bool.eqb s t && str_eqb ds es && (n =? m)%Z
  | _, _ => false
  end.

(** [1 / x] for a zero [x], the only division in the source. *)
Definition reciprocalOfZero (x : number) : number :=
  match x with
  | Zero negative => Infinity negative
  | _ => NaN
  end.

Definition decimalOfN (m : N) : str :=
  chars (DecimalString.NilZero.string_of_uint (N.to_uint m)).

Definition signPrefix (negative : bool) : str :=
  if negative then ["-"] else [].

(** [String(x)], the host's Number::toString in radix 10. *)
Definition Number_toString (x : number) : str :=
  match x with
  | NaN => chars "NaN"
  | Zero _ => chars "0"
  | Infinity negative => signPrefix negative ++ chars "Infinity"
  | Finite negative digits n =>
      let k := Z.of_nat (length digits) in
      signPrefix negative ++
      (if (k <=? n)%Z && (n <=? 21)%Z then
         digits ++ repeat "0" (Z.to_nat (n - k))
       else if (0 <? n)%Z && (n <=? 21)%Z then
         firstn (Z.to_nat n) digits ++ "." :: skipn (Z.to_nat n) digits
       else if (-6 <? n)%Z && (n <=? 0)%Z then
         "0" :: "." :: repeat "0" (Z.to_nat (- n)) ++ digits
       else
         let e := (n - 1)%Z in
         let exponent :=
           "e" :: (if (e <? 0)%Z then "-" else "+") :: decimalOfN (Z.to_N (Z.abs e)) in
         match digits with
         | [] => exponent
         | [d] => d :: exponent
         | d :: rest => d :: "." :: rest ++ exponent
         end)
  end.

(** The value of a decimal literal with integer digits [int], fraction
    digits [frac] and exponent [e], in canonical form. *)
Definition isZeroChar (c : ascii) : bool := c =? "0".

Definition decimalValue (negative : bool) (int frac : str) (e : Z) : number :=
  let all := int ++ frac in
  let significant := dropWhile isZeroChar all in
  match significant with
  | [] => Zero negative
  | _ :: _ =>
      Finite negative
        (rev (dropWhile isZeroChar (rev significant)))
        (Z.of_nat (length int) - Z.of_nat (length all - length significant) + e)
  end.

Definition digitValue (c : ascii) : Z := Z.of_nat (code c - 48).

Definition digitsValue (ds : str) : Z :=
  fold_left (fun acc c => (10 * acc + digitValue c)%Z) ds 0%Z.

(** The optional exponent part that may follow the digits of a literal;
    [None] when [s] is neither empty nor a well-formed exponent. *)
Definition exponentPart (s : str) : option Z :=
  match s with
  | [] => Some 0%Z
  | c :: s' =>
      if (c =? "e") || (c =? "E") then
        let negative := String_startsWith s' "-" in
        let ds :=
          if String_startsWith s' "-" || String_startsWith s' "+" then tl s' else s' in
        match ds with
        | [] => None
        | _ :: _ =>
            if forallb isDigit ds
            then Some (if negative then - digitsValue ds else digitsValue ds)%Z
            else None
        end
      else None
  end.

Definition StrUnsignedDecimalLiteral (negative : bool) (s : str) : number :=
  if str_eqb s (chars "Infinity") then Infinity negative
  else
    let int := takeWhile isDigit s in
    match dropWhile isDigit s with
    | "." :: s' =>
        let frac := takeWhile isDigit s' in
        match int, frac with
        | [], [] => NaN
        | _, _ =>
            match exponentPart (dropWhile isDigit s') with
            | Some e => decimalValue negative int frac e
            | None => NaN
            end
        end
    | rest =>
        match int with
        | [] => NaN
        | _ :: _ =>
            match exponentPart rest with
            | Some e => decimalValue negative int [] e
            | None => NaN
            end
        end
    end.

(** Binary, octal and hexadecimal integer literals. *)
Definition radixDigit (radix : N) (c : ascii) : option N :=
  let v :=
    if isDigit c then Some (N.of_nat (code c - 48))
    else if inRange 97 102 c then Some (N.of_nat (code c - 87))
    else if inRange 65 70 c then Some (N.of_nat (code c - 55))
    else None in
  match v with
  | Some d => if (d <? radix)%N then Some d else None
  | None => None
  end.

Fixpoint radixValue (radix : N) (s : str) (acc : N) : option N :=
  match s with
  | [] => Some acc
  | c :: s' =>
      match radixDigit radix c with
      | Some d => radixValue radix s' (radix * acc + d)%N
      | None => None
      end
  end.

Definition NonDecimalIntegerLiteral (radix : N) (s : str) : number :=
  match s with
  | [] => NaN
  | _ :: _ =>
      match radixValue radix s 0%N with
      | Some v => decimalValue false (decimalOfN v) [] 0
      | None => NaN
      end
  end.

Definition trim (s : str) : str :=
  rev (dropWhile isWhiteSpace (rev (dropWhile isWhiteSpace s))).

(** [Number(s)], the host's StringToNumber. *)
Definition StringToNumber (s : str) : number :=
  match trim s with
  | [] => Zero false
  | c :: s' =>
      if c =? "-" then StrUnsignedDecimalLiteral true s'
      else if c =? "+" then StrUnsignedDecimalLiteral false s'
      else if (c =? "0") && (String_startsWith s' "x" || String_startsWith s' "X")
      then NonDecimalIntegerLiteral 16 (tl s')
      else if (c =? "0") && (String_startsWith s' "o" || String_startsWith s' "O")
      then NonDecimalIntegerLiteral 8 (tl s')
      else if (c =? "0") && (String_startsWith s' "b" || String_startsWith s' "B")
      then NonDecimalIntegerLiteral 2 (tl s')
      else StrUnsignedDecimalLiteral false (c :: s')
  end.

(** ** Completions *)

Inductive error := TypeError.

Inductive completion (A : Type) :=
| Normal (a : A)
| Throw (e : error).
Arguments Normal {A} a.
Arguments Throw {A} e.

(** [try { body } catch (e) { handler }]. *)
Definition tryCatch {A} (body : completion A) (handler : error -> completion A)
  : completion A :=
  match body with
  | Normal a => Normal a
  | Throw e => handler e
  end.

Definition bind {A B} (c : completion A) (f : A -> completion B) : completion B :=
  match c with
  | Normal a => f a
  | Throw e => Throw e
  end.

Notation "x <- c ;; k" := (bind c (fun x => k))
  (at level 61, c at next level, right associativity).

(** An array element that may be missing: [None] is [undefined]. *)
Definition ToString (v : option str) : str :=
  match v with
  | Some s => s
  | None => chars "undefined"
  end.

(** [v.length] *)
Definition String_length (v : option str) : completion nat :=
  match v with
  | Some s => Normal (length s)
  | None => Throw TypeError
  end.

(** [v !== ''] *)
Definition notEmptyString (v : option str) : bool :=
  match v with
  | Some [] => false
  | _ => true
  end.

(** ** Patterns built from the separators *)

(** The class of one character. *)
Definition only (c : ascii) : ascii -> bool := fun x => x =? c.

(** The terms denoted by a backslash followed by one character, in a
    pattern without the unicode flag: the class escapes, the assertions, the
    control escapes, the legacy octal escapes, the backslash before [c]
    without a control letter (a backslash, then [c]), and the identity escape
    for every other character. *)
Definition escapeTable : list (ascii * list term) :=
  [ ("d", [Chars isDigit Once]);
    ("D", [Chars (complement isDigit) Once]);
    ("w", [Chars isWord Once]);
    ("W", [Chars (complement isWord) Once]);
    ("s", [Chars isWhiteSpace Once]);
    ("S", [Chars (complement isWhiteSpace) Once]);
    ("b", [WordBoundary false]);
    ("B", [WordBoundary true]);
    ("t", [Chars (only (ascii_of_nat 9)) Once]);
    ("n", [Chars (only (ascii_of_nat 10)) Once]);
    ("v", [Chars (only (ascii_of_nat 11)) Once]);
    ("f", [Chars (only (ascii_of_nat 12)) Once]);
    ("r", [Chars (only (ascii_of_nat 13)) Once]);
    ("c", [Chars (only "\") Once; Chars (only "c") Once]);
    ("0", [Chars (only (ascii_of_nat 0)) Once]);
    ("1", [Chars (only (ascii_of_nat 1)) Once]);
    ("2", [Chars (only (ascii_of_nat 2)) Once]);
    ("3", [Chars (only (ascii_of_nat 3)) Once]);
    ("4", [Chars (only (ascii_of_nat 4)) Once]);
    ("5", [Chars (only (ascii_of_nat 5)) Once]);
    ("6", [Chars (only (ascii_of_nat 6)) Once]);
    ("7", [Chars (only (ascii_of_nat 7)) Once]) ].

Fixpoint lookupEscape (table : list (ascii * list term)) (c : ascii)
  : option (list term) :=
  match table with
  | (x, ts) :: table' => if c =? x then Some ts else lookupEscape table' c
  | [] => None
  end.

Definition AtomEscape (c : ascii) : list term :=
  match lookupEscape escapeTable c with
  | Some ts => ts
  | None => [Chars (only c) Once]
  end.

(** The backslash before [c] is an identity escape: the escape matches the
    character [c] itself. *)
Definition IdentityEscape (c : ascii) : bool :=
  match lookupEscape escapeTable c with
  | Some _ => false
  | None => true
  end.

(** [[c]] is the class of the character [c] itself: [c] is none of the
    three characters that change the reading of the brackets. *)
Definition ClassLiteral (c : ascii) : bool :=
  negb ((c =? "]") || (c =? "^") || (c =? "\")).

(** ** The converter *)

Record Options := {
  precision : nat;
  groupSeparator : ascii;
  decimalSeparator : ascii
}.

Definition NEGATIVE_SIGN : ascii := "-".
Definition DOT_SIGN : ascii := ".".

Definition defaultOptions : Options :=
  {| precision := 2; groupSeparator := " "; decimalSeparator := "," |}.

Section useConverter.
Variable options : Options.

(** [new RegExp(`\\${groupSeparator}`, 'g')] *)
Definition groupSeparatorRegex : RegExp :=
  map Bare (AtomEscape (groupSeparator options)).

(** The pattern of four groups: an optional minus sign, a run of digits,
    an optional [decimalSeparator] written between brackets, a run of
    digits.  The separator is interpolated as it is: with a closing bracket
    the third group is the empty class followed by an optional bracket; with
    a circumflex it is the negated empty class; with a backslash the class
    extends to the closing bracket of the fourth group and the pattern has
    three groups. *)
Definition extractionRegex : RegExp :=
  let d := decimalSeparator options in
  let sign := Capture [Chars (only "-") Optional] in
  let digits := Capture [Chars isDigit ZeroOrMore] in
  if d =? "]" then
    [sign; digits; Capture [Chars noChar Once; Chars (only "]") Optional]; digits]
  else if d =? "^" then
    [sign; digits; Capture [Chars anyChar Optional]; digits]
  else if d =? "\" then
    [sign; digits; Capture [Chars (union (oneOf (chars "]?)([")) isDigit) ZeroOrMore]]
  else
    [sign; digits; Capture [Chars (only d) Optional]; digits].

(** [/([0-9]{3})/g] and the replacement [`$1${groupSeparator}`]. *)
Definition threeDigits : RegExp := [Capture [Chars isDigit (Exactly 3)]].

(** Callback for setting group separator. *)
Definition setGroupSeparators (value : str) : str :=
  let enhanced :=
    String_reverse
      (String_replaceAll (String_reverse value) threeDigits
         (fun m => nth 0 (captures m) [] ++ [groupSeparator options])) in
  if String_startsWith enhanced (groupSeparator options)
  then String_slice1 enhanced
  else enhanced.

(** Converts number value to string.  The array pattern takes the
    elements 1 to 4 of the match, that is the captures; destructuring [null]
    raises, and so does reading the length of a missing fourth element.  The
    last branch is not reached: every extraction pattern has at least three
    groups ([extractionRegex_groups]).  The zeros are [repeat]: the limit of
    the host on the length of an array, 2^32, is not modelled, and a statement
    about when [toString] raises carries the bound on [precision]. *)
Definition toString (value : number) : completion str :=
  let valueAsString :=
    String_replaceChar (Number_toString value) DOT_SIGN (decimalSeparator options) in
  let valueAsString :=
    if strictEquals value (Zero false) then
      let isNegativeZero := strictEquals (reciprocalOfZero value) (Infinity true) in
      let negativeSign := if isNegativeZero then [NEGATIVE_SIGN] else [] in
      negativeSign ++ valueAsString
    else valueAsString in
  match String_match valueAsString extractionRegex with
  | None => Throw TypeError
  | Some m =>
      match captures m with
      | sign :: integer :: separator :: tail =>
          let fraction := hd_error tail in
          let formatted := sign in
          let formatted :=
            match integer with
            | [] => formatted
            | _ :: _ =>
                let cleared := String_replaceAll integer groupSeparatorRegex (fun _ => []) in
                let withGroupSeparators := setGroupSeparators cleared in
                formatted ++ withGroupSeparators
            end in
          shorter <-
            match precision options with
            | O => Normal false
            | S _ =>
                len <- String_length fraction ;;
                Normal (len <? precision options)%nat
            end ;;
          if shorter : bool then
            len <- String_length fraction ;;
            let zeroes := repeat "0" (precision options - len) in
            let formatted := formatted ++ [decimalSeparator options] in
            let formatted := formatted ++ ToString fraction in
            let formatted := formatted ++ zeroes in
            Normal formatted
          else
            let formatted :=
              match separator with [] => formatted | _ :: _ => formatted ++ separator end in
            let formatted :=
              if notEmptyString fraction then formatted ++ ToString fraction else formatted in
            Normal formatted
      | _ => Throw TypeError
      end
  end.

(** Converts string value to number.  Nothing in the guarded block raises;
    its handler falls through to the final [return Number.NaN]. *)
Definition toNumber (value : str) : completion number :=
  match value with
  | [] => Normal NaN
  | _ :: _ =>
      let stripped := String_replaceAll value groupSeparatorRegex (fun _ => []) in
      match String_match stripped extractionRegex with
      | None => Throw TypeError
      | Some m =>
          match captures m with
          | sign :: integer :: separator :: tail =>
              let fraction := hd_error tail in
              tryCatch
                (let formatted := sign in
                 let formatted :=
                   match integer with [] => formatted | _ :: _ => formatted ++ integer end in
                 let formatted :=
                   match separator with [] => formatted | _ :: _ => formatted ++ [DOT_SIGN] end in
                 let formatted :=
                   if notEmptyString fraction then formatted ++ ToString fraction else formatted in
                 Normal (StringToNumber formatted))
                (fun _ => Normal NaN)
          | _ => Throw TypeError
          end
      end
  end.
End useConverter.

(** ** Notions of the specification *)

(** A separator is a printable character that is not a digit; a
    configuration is valid when its two separators are such characters and
    differ. *)
Definition isPrintable (c : ascii) : bool := inRange 32 126 c.

Definition isSeparatorChar (c : ascii) : bool := isPrintable c && negb (isDigit c).

Definition validConfiguration (o : Options) : bool :=
  isSeparatorChar (groupSeparator o)
  && isSeparatorChar (decimalSeparator o)
  && negb (groupSeparator o =? decimalSeparator o).

(** The separators stand for themselves in the two patterns built from
    them. *)
Definition literalPatterns (o : Options) : bool :=
  IdentityEscape (groupSeparator o) && ClassLiteral (decimalSeparator o).

(** The decomposed number of the data model. *)
Record Decomposed := {
  sign : str;
  integerDigits : str;
  hasSeparator : bool;
  fractionDigits : str
}.

Definition optionalChar (p : ascii -> bool) (s : str) : str :=
  match s with
  | c :: _ => if p c then [c] else []
  | [] => []
  end.

(** The decomposition procedure: an optional leading sign marker, a maximal
    run of digits, an optional single separator, a maximal run of digits. *)
Definition decompose (separator : ascii) (source : str) : Decomposed :=
  let sg := optionalChar (only "-") source in
  let afterSign := skipn (length sg) source in
  let int := takeWhile isDigit afterSign in
  let afterInt := dropWhile isDigit afterSign in
  let sep := optionalChar (only separator) afterInt in
  let afterSep := skipn (length sep) afterInt in
  {| sign := sg;
     integerDigits := int;
     hasSeparator := match sep with [] => false | _ :: _ => true end;
     fractionDigits := takeWhile isDigit afterSep |}.

(** Removing every occurrence of one character. *)
Definition removeChar (c : ascii) (s : str) : str :=
  filter (fun x => negb (x =? c)) s.

(** The canonical decimal string of step 4 of [parse]. *)
Definition canonicalString (p : Decomposed) : str :=
  sign p ++ integerDigits p ++ (if hasSeparator p then ["."] else []) ++ fractionDigits p.

(** Steps 2 to 5 of [parse] as the specification words them. *)
Definition parseSteps (o : Options) (value : str) : number :=
  StringToNumber
    (canonicalString
       (decompose (decimalSeparator o) (removeChar (groupSeparator o) value))).

(** The host representation of [x] uses exponent notation. *)
Definition exponentNotation (x : number) : bool :=
  match x with
  | Finite _ _ n => negb ((-6 <? n)%Z && (n <=? 21)%Z)
  | _ => false
  end.

(** The parts of the host representation of [x]. *)
Definition hostParts (x : number) : Decomposed :=
  decompose "." (Number_toString x).

(** The output consists of an optional leading minus sign followed by
    digits and the two separators only. *)
Definition wellFormedOutput (o : Options) (s : str) : Prop :=
  exists body,
    (s = body \/ s = "-" :: body)
    /\ Forall (fun c => isDigit c = true
                        \/ c = groupSeparator o
                        \/ c = decimalSeparator o) body.

(** ** Notions used in the statements and proofs *)

(** The number of capture groups of a pattern. *)
Definition countCaptures (re : RegExp) : nat :=
  length (filter (fun p => match p with Capture _ => true | Bare _ => false end) re).

(** The character before the position reached after taking [m]. *)
Definition advance (prev : option ascii) (m : str) : option ascii :=
  fold_left (fun _ c => Some c) m prev.

(** The extraction pattern when its third group is an optional character
    of the class [sep]. *)
Definition fourGroups (sep : ascii -> bool) : RegExp :=
  [ Capture [Chars (only "-") Optional];
    Capture [Chars isDigit ZeroOrMore];
    Capture [Chars sep Optional];
    Capture [Chars isDigit ZeroOrMore] ].

(** The extraction pattern when its third group swallows the fourth: three
    groups, the last a run of characters of the class [cls]. *)
Definition threeGroups (cls : ascii -> bool) : RegExp :=
  [ Capture [Chars (only "-") Optional];
    Capture [Chars isDigit ZeroOrMore];
    Capture [Chars cls ZeroOrMore] ].

(** The extraction pattern when its third group starts with the empty
    class. *)
Definition emptyClassGroups : RegExp :=
  [ Capture [Chars (only "-") Optional];
    Capture [Chars isDigit ZeroOrMore];
    Capture [Chars noChar Once; Chars (only "]") Optional];
    Capture [Chars isDigit ZeroOrMore] ].

(** The point and the digits after the first one. *)
Definition mantissaTail (t : str) : str :=
  match t with
  | [] => []
  | _ :: _ => "." :: t
  end.

(** The text [rest] cannot continue a number text that ends in digits, with
    or without a separator before them. *)
Definition stopsNumber (d : ascii) (dot : bool) (rest : str) : Prop :=
  match rest with
  | [] => True
  | c :: _ => isDigit c = false /\ (dot = false -> (c =? d) = false)
  end.

(** The separator as found: the character [d] when one was present. *)
Definition separatorText (d : ascii) (p : Decomposed) : str :=
  if hasSeparator p then [d] else [].

(** The characters of a canonical string. *)
Definition isDecimalChar (c : ascii) : bool := isDigit c || (c =? ".").

(** The value read from the text [int . frac] or [int]. *)
Definition literalValue (negative : bool) (int : str) (dot : bool) (frac : str) : number :=
  match int, frac with
  | [], [] => NaN
  | _, _ => decimalValue negative int frac 0
  end.

(** What the global replacement of three-digit runs computes on a digit
    string: the separator after every complete run of three. *)
Fixpoint insertEvery3 (g : ascii) (s : str) : str :=
  match s with
  | a :: b :: c :: rest => a :: b :: c :: g :: insertEvery3 g rest
  | _ => s
  end.

(** The separator between runs of three only. *)
Fixpoint joinEvery3 (g : ascii) (s : str) : str :=
  match s with
  | a :: b :: c :: rest =>
      match rest with
      | [] => s
      | _ :: _ => a :: b :: c :: g :: joinEvery3 g rest
      end
  | _ => s
  end.

(** The string is a positive number of complete runs of three. *)
Fixpoint fullGroups (s : str) : bool :=
  match s with
  | _ :: _ :: _ :: rest =>
      match rest with
      | [] => true
      | _ :: _ => fullGroups rest
      end
  | _ => false
  end.

(** The text that [toString] decomposes: the host representation with its
    point replaced, and the sign of a negative zero put back. *)
Definition valueAsString (o : Options) (x : number) : str :=
  match x with Zero true => ["-"] | _ => [] end
  ++ String_replaceChar (Number_toString x) "." (decimalSeparator o).

(** The integer part of the output of [toString]. *)
Definition groupedInteger (o : Options) (int : str) : str :=
  match int with
  | [] => []
  | _ :: _ =>
      setGroupSeparators o (String_replaceAll int (groupSeparatorRegex o) (fun _ => []))
  end.

(** The fraction part of the output of [toString]: padded, or passed
    through. *)
Definition fractionText (o : Options) (p : Decomposed) : str :=
  if (0 <? precision o)%nat && (length (fractionDigits p) <? precision o)%nat then
    [decimalSeparator o] ++ fractionDigits p
      ++ repeat "0" (precision o - length (fractionDigits p))
  else separatorText (decimalSeparator o) p ++ fractionDigits p.

(** The sign that the host representation shows. *)
Definition shownSign (x : number) : str :=
  match x with
  | Finite negative _ _ => signPrefix negative
  | _ => []
  end.

(** The integer digits, the presence of a point and the fraction digits of
    the host representation of a number in plain notation. *)
Definition plainInteger (x : number) : str :=
  match x with
  | Finite _ digits n =>
      if (Z.of_nat (length digits) <=? n)%Z
      then digits ++ repeat "0" (Z.to_nat (n - Z.of_nat (length digits)))
      else if (0 <? n)%Z then firstn (Z.to_nat n) digits
      else ["0"]
  | _ => ["0"]
  end.

Definition plainHasPoint (x : number) : bool :=
  match x with
  | Finite _ digits n => negb (Z.of_nat (length digits) <=? n)%Z
  | _ => false
  end.

Definition plainFraction (x : number) : str :=
  match x with
  | Finite _ digits n =>
      if (Z.of_nat (length digits) <=? n)%Z then []
      else if (0 <? n)%Z then skipn (Z.to_nat n) digits
      else repeat "0" (Z.to_nat (- n)) ++ digits
  | _ => []
  end.

(** The sign that [toString] decomposes: that of the host representation,
    and the minus sign put back for a negative zero. *)
Definition formattedSign (x : number) : str :=
  match x with
  | Finite negative _ _ | Zero negative => signPrefix negative
  | _ => []
  end.

(** The parts that [toString] works on and the parts of the host
    representation, for a number in plain notation. *)
Definition plainParts (sg : str) (x : number) : Decomposed :=
  {| sign := sg;
     integerDigits := plainInteger x;
     hasSeparator := plainHasPoint x;
     fractionDigits := plainFraction x |}.

(** The number 1e21, whose host representation is [1e+21]. *)
Definition oneSextillion : number := Finite false (chars "1") 22.

(** [toNumber (toString x)] is defined and strictly equal to [x]. *)
Definition roundTrips (o : Options) (x : number) : Prop :=
  exists s y,
    toString o x = Normal s /\ toNumber o s = Normal y /\ strictEquals y x = true.

(** A valid configuration whose group separator is the minus sign. *)
Definition minusOptions : Options :=
  {| precision := 2; groupSeparator := "-"; decimalSeparator := "," |}.

(** A valid configuration whose decimal separator is the closing bracket. *)
Definition bracketOptions : Options :=
  {| precision := 2; groupSeparator := " "; decimalSeparator := "]" |}.

(** Valid configurations whose decimal separator is the backslash, and the
    circumflex. *)
Definition backslashOptions (precision : nat) : Options :=
  {| precision := precision; groupSeparator := " "; decimalSeparator := "\" |}.

Definition circumflexOptions : Options :=
  {| precision := 2; groupSeparator := " "; decimalSeparator := "^" |}.

(** A valid configuration whose group separator is the letter d. *)
Definition digitClassOptions : Options :=
  {| precision := 2; groupSeparator := "d"; decimalSeparator := "," |}.

(** * Properties *)

(** ** Characters and runs *)

Ltac class_arith :=
  unfold isSeparatorChar, isPrintable, isWhiteSpace, isDigit, inRange in *;
  repeat match goal with
         | H : context [(?a <=? ?b)%nat] |- _ => destruct (Nat.leb_spec a b)
         | |- context [(?a <=? ?b)%nat] => destruct (Nat.leb_spec a b)
         | H : context [(?a =? ?b)%nat] |- _ => destruct (Nat.eqb_spec a b)
         | |- context [(?a =? ?b)%nat] => destruct (Nat.eqb_spec a b)
         end;
  simpl in *; try discriminate; try reflexivity; try lia.

Lemma class_neq (p : ascii -> bool) (c d : ascii) :
  p c = true -> p d = false -> (c =? d) = false.
Proof.
  intros Hc Hd. destruct (Ascii.eqb_spec c d) as [->|]; congruence.
Qed.

Lemma forallb_Forall (p : ascii -> bool) (s : str) :
  forallb p s = true <-> Forall (fun c => p c = true) s.
Proof.
  induction s as [|c s IH]; simpl.
  - split; auto.
  - rewrite andb_true_iff, IH. split.
    + intros [? ?]; constructor; assumption.
    + intros H; inversion H; auto.
Qed.

Lemma takeWhile_dropWhile (p : ascii -> bool) (s : str) :
  takeWhile p s ++ dropWhile p s = s.
Proof.
  induction s as [|c s IH]; simpl; [reflexivity|].
  destruct (p c); simpl; congruence.
Qed.

Lemma takeWhile_all (p : ascii -> bool) (s : str) :
  Forall (fun c => p c = true) (takeWhile p s).
Proof.
  induction s as [|c s IH]; simpl; [constructor|].
  destruct (p c) eqn:E; constructor; assumption.
Qed.

Lemma takeWhile_app (p : ascii -> bool) (s t : str) :
  Forall (fun c => p c = true) s ->
  takeWhile p (s ++ t) = s ++ takeWhile p t.
Proof.
  induction 1 as [|c s Hc _ IH]; simpl; [reflexivity|].
  now rewrite Hc, IH.
Qed.

Lemma dropWhile_app (p : ascii -> bool) (s t : str) :
  Forall (fun c => p c = true) s ->
  dropWhile p (s ++ t) = dropWhile p t.
Proof.
  induction 1 as [|c s Hc _ IH]; simpl; [reflexivity|].
  now rewrite Hc.
Qed.

Lemma takeWhile_stop (p : ascii -> bool) (c : ascii) (s : str) :
  p c = false -> takeWhile p (c :: s) = [].
Proof. intros H; simpl; now rewrite H. Qed.

Lemma dropWhile_stop (p : ascii -> bool) (c : ascii) (s : str) :
  p c = false -> dropWhile p (c :: s) = c :: s.
Proof. intros H; simpl; now rewrite H. Qed.

Lemma takeWhile_id (p : ascii -> bool) (s : str) :
  Forall (fun c => p c = true) s -> takeWhile p s = s.
Proof.
  intros H. rewrite <- (app_nil_r s) at 1.
  rewrite takeWhile_app by assumption. apply app_nil_r.
Qed.

Lemma dropWhile_all (p : ascii -> bool) (s : str) :
  Forall (fun c => p c = true) s -> dropWhile p s = [].
Proof.
  intros H. rewrite <- (app_nil_r s).
  now rewrite dropWhile_app by assumption.
Qed.

Lemma dropWhile_head (p : ascii -> bool) (s : str) :
  match dropWhile p s with
  | c :: _ => p c = false
  | [] => True
  end.
Proof.
  induction s as [|c s IH]; simpl; [exact I|].
  destruct (p c) eqn:E; [exact IH | exact E].
Qed.

(** ** The matcher *)

Section MatcherFacts.
Variable R : Type.

(** When the continuation accepts the longest run, [*] returns what the
    continuation returns there. *)
Lemma zeroOrMore_greedy cls s taken prev (k : cont R) r :
  k (taken ++ takeWhile cls s) (advance prev (takeWhile cls s)) (dropWhile cls s) = Some r ->
  zeroOrMore R cls s taken prev k = Some r.
Proof.
  revert taken prev. induction s as [|c s IH]; intros taken prev H; simpl in *.
  - now rewrite app_nil_r in H.
  - destruct (cls c); simpl in *.
    + rewrite (IH (taken ++ [c]) (Some c)); [reflexivity|].
      now rewrite <- app_assoc.
    + now rewrite app_nil_r in H.
Qed.

Lemma star_greedy cls s prev (k : cont R) r :
  k (takeWhile cls s) (advance prev (takeWhile cls s)) (dropWhile cls s) = Some r ->
  matchTerm R (Chars cls ZeroOrMore) prev s k = Some r.
Proof. intros H. cbn [matchTerm]. now apply zeroOrMore_greedy. Qed.

Lemma optional_greedy cls s prev (k : cont R) r :
  k (optionalChar cls s) (advance prev (optionalChar cls s))
    (skipn (length (optionalChar cls s)) s) = Some r ->
  matchTerm R (Chars cls Optional) prev s k = Some r.
Proof.
  destruct s as [|c s]; simpl; [auto|].
  destruct (cls c); simpl; intros H; [now rewrite H | exact H].
Qed.

(** Whatever a term, a group or a pattern matches is a prefix of the
    input. *)
Lemma zeroOrMore_inv cls s taken prev (k : cont R) r :
  zeroOrMore R cls s taken prev k = Some r ->
  exists m p s', s = m ++ s' /\ k (taken ++ m) p s' = Some r.
Proof.
  revert taken prev. induction s as [|c s IH]; intros taken prev H; simpl in H.
  - exists [], prev, []. split; [reflexivity | now rewrite app_nil_r].
  - destruct (cls c).
    + destruct (zeroOrMore R cls s (taken ++ [c]) (Some c) k) eqn:E; simpl in H.
      * injection H as ->. apply IH in E as (m & p & s' & -> & E).
        exists (c :: m), p, s'. split; [reflexivity|].
        now rewrite <- app_assoc in E.
      * exists [], prev, (c :: s). split; [reflexivity | now rewrite app_nil_r].
    + exists [], prev, (c :: s). split; [reflexivity | now rewrite app_nil_r].
Qed.

Lemma exactly_inv n cls s taken prev (k : cont R) r :
  exactly R n cls s taken prev k = Some r ->
  exists m p s', s = m ++ s' /\ k (taken ++ m) p s' = Some r.
Proof.
  revert s taken prev. induction n as [|n IH]; intros s taken prev H; simpl in H.
  - exists [], prev, s. split; [reflexivity | now rewrite app_nil_r].
  - destruct s as [|c s]; [discriminate|].
    destruct (cls c); [|discriminate].
    apply IH in H as (m & p & s' & -> & E).
    exists (c :: m), p, s'. split; [reflexivity|].
    now rewrite <- app_assoc in E.
Qed.

Lemma matchTerm_inv t prev s (k : cont R) r :
  matchTerm R t prev s k = Some r ->
  exists m p s', s = m ++ s' /\ k m p s' = Some r.
Proof.
  destruct t as [cls q|negated]; simpl.
  - destruct q as [| | |n].
    + destruct s as [|c s]; [discriminate|].
      destruct (cls c); [|discriminate].
      intros H. exists [c], (Some c), s. split; [reflexivity | exact H].
    + destruct s as [|c s].
      * intros H. exists [], prev, []. split; [reflexivity | exact H].
      * destruct (cls c).
        -- destruct (k [c] (Some c) s) eqn:E; simpl; intros H.
           ++ injection H as ->. exists [c], (Some c), s. split; [reflexivity | exact E].
           ++ exists [], prev, (c :: s). split; [reflexivity | exact H].
        -- intros H. exists [], prev, (c :: s). split; [reflexivity | exact H].
    + intros H. apply zeroOrMore_inv in H. exact H.
    + intros H. apply exactly_inv in H. exact H.
  - destruct (xorb _ negated); [|discriminate].
    intros H. exists [], prev, s. split; [reflexivity | exact H].
Qed.

Lemma matchTerms_inv ts prev s taken (k : cont R) r :
  matchTerms R ts prev s taken k = Some r ->
  exists m p s', s = m ++ s' /\ k (taken ++ m) p s' = Some r.
Proof.
  revert prev s taken. induction ts as [|t ts IH]; intros prev s taken H; simpl in H.
  - exists [], prev, s. split; [reflexivity | now rewrite app_nil_r].
  - apply matchTerm_inv in H as (m & p & s' & -> & H).
    apply IH in H as (m' & p' & s'' & -> & H).
    exists (m ++ m'), p', s''. split.
    + now rewrite app_assoc.
    + now rewrite app_assoc.
Qed.

Lemma matchPieces_inv ps prev s whole caps
      (k : str -> list str -> str -> option R) r :
  matchPieces R ps prev s whole caps k = Some r ->
  exists m caps' s', s = m ++ s' /\ k (whole ++ m) (caps ++ caps') s' = Some r.
Proof.
  revert prev s whole caps.
  induction ps as [|[t|ts] ps IH]; intros prev s whole caps H; simpl in H.
  - exists [], [], s. split; [reflexivity | now rewrite !app_nil_r].
  - apply matchTerm_inv in H as (m & p & s' & -> & H).
    apply IH in H as (m' & caps' & s'' & -> & H).
    exists (m ++ m'), caps', s''. split; [now rewrite app_assoc|].
    now rewrite app_assoc.
  - apply matchTerms_inv in H as (m & p & s' & -> & H).
    apply IH in H as (m' & caps' & s'' & -> & H).
    exists (m ++ m'), ([m] ++ caps'), s''. split; [now rewrite app_assoc|].
    now rewrite !app_assoc.
Qed.
End MatcherFacts.

Lemma execAt_split re prev s r :
  execAt re prev s = Some r -> s = matched r ++ remaining r.
Proof.
  unfold execAt. intros H.
  apply matchPieces_inv in H as (m & caps' & s' & -> & H).
  injection H as <-. reflexivity.
Qed.

(** A match has one capture for each group of the pattern. *)
Lemma matchPieces_captures (R : Type) ps prev s whole caps
      (k : str -> list str -> str -> option R) r :
  matchPieces R ps prev s whole caps k = Some r ->
  exists w caps' s',
    length caps' = countCaptures ps /\ k w (caps ++ caps') s' = Some r.
Proof.
  revert prev s whole caps.
  induction ps as [|[t|ts] ps IH]; intros prev s whole caps H; simpl in H.
  - exists whole, [], s. split; [reflexivity | now rewrite app_nil_r].
  - apply matchTerm_inv in H as (m & p & s' & _ & H).
    apply IH in H as (w & caps' & s'' & Hl & H).
    exists w, caps', s''. split; assumption.
  - apply matchTerms_inv in H as (m & p & s' & _ & H).
    apply IH in H as (w & caps' & s'' & Hl & H).
    exists w, (([] ++ m) :: caps'), s''. split.
    + unfold countCaptures in *. simpl. now rewrite Hl.
    + now rewrite <- app_assoc in H.
Qed.

Lemma String_match_captures s re m :
  String_match s re = Some m -> length (captures m) = countCaptures re.
Proof.
  unfold String_match. generalize (@None ascii) as prev.
  induction s as [|c s IH]; intros prev H; cbn [searchFrom] in H;
    destruct (execAt re prev _) as [r|] eqn:E.
  1,3: injection H as <-; unfold execAt in E;
       apply matchPieces_captures in E as (w & caps' & s' & Hl & E);
       injection E as <-; exact Hl.
  - discriminate.
  - exact (IH _ H).
Qed.

Lemma extractionRegex_groups o s m :
  String_match s (extractionRegex o) = Some m -> 3 <= length (captures m).
Proof.
  intros H. rewrite (String_match_captures _ _ _ H).
  unfold extractionRegex.
  destruct (_ =? "]"); [|destruct (_ =? "^"); [|destruct (_ =? "\")]];
    cbn; lia.
Qed.

(** ** The extraction pattern *)

Lemma extractionRegex_literal o :
  ClassLiteral (decimalSeparator o) = true ->
  extractionRegex o = fourGroups (only (decimalSeparator o)).
Proof.
  unfold ClassLiteral, extractionRegex. intros H.
  apply negb_true_iff in H.
  apply orb_false_iff in H as [H H3]. apply orb_false_iff in H as [H1 H2].
  now rewrite H1, H2, H3.
Qed.

(** A pattern of four optional groups matches at the first position, each
    group taking the longest text it can. *)
Lemma execAt_fourGroups sep prev s :
  let sg := optionalChar (only "-") s in
  let s1 := skipn (length sg) s in
  let int := takeWhile isDigit s1 in
  let s2 := dropWhile isDigit s1 in
  let sp := optionalChar sep s2 in
  let s3 := skipn (length sp) s2 in
  let frac := takeWhile isDigit s3 in
  execAt (fourGroups sep) prev s
  = Some {| matched := ((sg ++ int) ++ sp) ++ frac;
            captures := [sg; int; sp; frac];
            remaining := dropWhile isDigit s3 |}.
Proof.
  intros sg s1 int s2 sp s3 frac.
  unfold execAt, fourGroups. cbn [matchPieces matchTerms].
  apply optional_greedy. fold sg s1.
  apply star_greedy. fold int s2.
  apply optional_greedy. fold sp s3.
  apply star_greedy. fold frac.
  reflexivity.
Qed.

Lemma optionalChar_only d s :
  (if match optionalChar (only d) s with [] => false | _ :: _ => true end
   then [d] else [])
  = optionalChar (only d) s.
Proof.
  destruct s as [|c s]; simpl; [reflexivity|].
  unfold only. destruct (Ascii.eqb_spec c d) as [->|]; reflexivity.
Qed.

Lemma String_match_literal o s :
  ClassLiteral (decimalSeparator o) = true ->
  let p := decompose (decimalSeparator o) s in
  exists m,
    String_match s (extractionRegex o) = Some m
    /\ captures m
       = [sign p; integerDigits p; separatorText (decimalSeparator o) p; fractionDigits p].
Proof.
  intros H p. rewrite (extractionRegex_literal o H).
  unfold String_match.
  destruct s as [|c s']; cbn [searchFrom];
    rewrite execAt_fourGroups; eexists; (split; [reflexivity|]);
    cbn [captures]; unfold p, decompose, separatorText; cbn [sign integerDigits
      hasSeparator fractionDigits];
    rewrite optionalChar_only; reflexivity.
Qed.

(** The parts of a decomposition. *)
Lemma decompose_sign d s :
  sign (decompose d s) = [] \/ sign (decompose d s) = ["-"].
Proof.
  unfold decompose; cbn [sign]. destruct s as [|c s]; simpl; [now left|].
  unfold only. destruct (Ascii.eqb_spec c "-") as [->|]; [now right | now left].
Qed.

Lemma decompose_integer d s :
  Forall (fun c => isDigit c = true) (integerDigits (decompose d s)).
Proof. apply takeWhile_all. Qed.

Lemma decompose_fraction d s :
  Forall (fun c => isDigit c = true) (fractionDigits (decompose d s)).
Proof. apply takeWhile_all. Qed.

(** Without a separator nothing is left for the fraction: the integer run
    is maximal. *)
Lemma decompose_no_separator d s :
  hasSeparator (decompose d s) = false -> fractionDigits (decompose d s) = [].
Proof.
  unfold decompose; cbn [hasSeparator fractionDigits].
  set (rest := dropWhile isDigit _).
  pose proof (dropWhile_head isDigit (skipn (length (optionalChar (only "-") s)) s)) as Hh.
  fold rest in Hh.
  destruct rest as [|c rest']; simpl; [reflexivity|].
  destruct (only d c); [discriminate|].
  intros _. simpl. now rewrite Hh.
Qed.

(** ** Stripping the group separator *)

Lemma groupSeparatorRegex_literal o :
  IdentityEscape (groupSeparator o) = true ->
  groupSeparatorRegex o = [Bare (Chars (only (groupSeparator o)) Once)].
Proof.
  unfold IdentityEscape, groupSeparatorRegex, AtomEscape.
  destruct (lookupEscape escapeTable (groupSeparator o)); [discriminate|reflexivity].
Qed.

Lemma replaceFrom_literal g fuel prev s :
  length s < fuel ->
  replaceFrom fuel [Bare (Chars (only g) Once)] (fun _ => []) prev s = removeChar g s.
Proof.
  revert prev s. induction fuel as [|fuel IH]; intros prev s Hlen; [lia|].
  destruct s as [|c s]; [reflexivity|].
  cbn [replaceFrom]. unfold execAt. cbn [matchPieces matchTerm].
  simpl in Hlen. simpl removeChar. unfold only at 1.
  destruct (c =? g); cbn [matched remaining negb app].
  - apply IH. lia.
  - f_equal. apply IH. lia.
Qed.

Lemma strip_literal o s :
  IdentityEscape (groupSeparator o) = true ->
  String_replaceAll s (groupSeparatorRegex o) (fun _ => [])
  = removeChar (groupSeparator o) s.
Proof.
  intros H. unfold String_replaceAll.
  rewrite (groupSeparatorRegex_literal o H).
  apply replaceFrom_literal. lia.
Qed.

(** Replacing matches by nothing only deletes characters. *)
Lemma replaceFrom_delete (P : ascii -> Prop) fuel re prev s :
  Forall P s -> Forall P (replaceFrom fuel re (fun _ => []) prev s).
Proof.
  revert prev s. induction fuel as [|fuel IH]; intros prev s H; [exact H|].
  cbn [replaceFrom].
  assert (Hcopy : Forall P
            match s with
            | c :: s' => c :: replaceFrom fuel re (fun _ => []) (Some c) s'
            | [] => []
            end).
  { destruct s as [|c s']; [constructor|].
    inversion H; subst. constructor; [assumption|]. now apply IH. }
  destruct (execAt re prev s) as [r|] eqn:E; [|exact Hcopy].
  destruct (matched r) as [|x m] eqn:Em; [exact Hcopy|].
  cbn [app]. apply IH.
  apply execAt_split in E. rewrite E in H.
  apply Forall_app in H. tauto.
Qed.

(** The scan never runs out of steps: any two bounds above the length of
    the input give the same result. *)
Lemma replaceFrom_fuel re replacement fuel fuel' prev s :
  length s < fuel -> length s < fuel' ->
  replaceFrom fuel re replacement prev s = replaceFrom fuel' re replacement prev s.
Proof.
  revert fuel' prev s. induction fuel as [|fuel IH]; intros fuel' prev s H H'; [lia|].
  destruct fuel' as [|fuel']; [lia|]. cbn [replaceFrom].
  assert (Hcopy :
            match s with
            | c :: s' => c :: replaceFrom fuel re replacement (Some c) s'
            | [] => []
            end
            = match s with
              | c :: s' => c :: replaceFrom fuel' re replacement (Some c) s'
              | [] => []
              end).
  { destruct s as [|c s']; [reflexivity|]. f_equal. apply IH; simpl in *; lia. }
  destruct (execAt re prev s) as [r|] eqn:E; [|exact Hcopy].
  destruct (matched r) as [|x m] eqn:Em; [now rewrite Hcopy|].
  f_equal. apply execAt_split in E.
  apply (f_equal (@length ascii)) in E. rewrite length_app, Em in E.
  apply IH; simpl in *; lia.
Qed.

Lemma strip_digits o s :
  Forall (fun c => isDigit c = true) s ->
  Forall (fun c => isDigit c = true)
         (String_replaceAll s (groupSeparatorRegex o) (fun _ => [])).
Proof. apply replaceFrom_delete. Qed.

Lemma removeChar_digits g s :
  isDigit g = false ->
  Forall (fun c => isDigit c = true) s -> removeChar g s = s.
Proof.
  intros Hg. induction 1 as [|c s Hc _ IH]; simpl; [reflexivity|].
  rewrite (class_neq isDigit c g Hc Hg). simpl. now rewrite IH.
Qed.

(** ** Reading a canonical decimal string *)

Lemma digit_not_space c : isDigit c = true -> isWhiteSpace c = false.
Proof. intros H. class_arith. Qed.

Lemma digit_decimalChar c : isDigit c = true -> isDecimalChar c = true.
Proof. unfold isDecimalChar. now intros ->. Qed.

Lemma decimalChar_not_space c : isDecimalChar c = true -> isWhiteSpace c = false.
Proof.
  unfold isDecimalChar. intros H. apply orb_true_iff in H as [H|H].
  - now apply digit_not_space.
  - apply Ascii.eqb_eq in H. now subst.
Qed.

Lemma decimalChar_neq c x :
  isDecimalChar x = false -> isDecimalChar c = true -> (c =? x) = false.
Proof. intros Hx Hc. exact (class_neq isDecimalChar c x Hc Hx). Qed.

Lemma dropWhile_none (p : ascii -> bool) (s : str) :
  Forall (fun c => p c = false) s -> dropWhile p s = s.
Proof. destruct 1 as [|c s Hc _]; simpl; [reflexivity | now rewrite Hc]. Qed.

Lemma trim_id s :
  Forall (fun c => isWhiteSpace c = false) s -> trim s = s.
Proof.
  intros H. unfold trim. rewrite (dropWhile_none _ s H).
  rewrite dropWhile_none by now apply Forall_rev.
  apply rev_involutive.
Qed.

Lemma startsWith_other (P : ascii -> Prop) s x :
  Forall P s -> (forall c, P c -> (c =? x) = false) -> String_startsWith s x = false.
Proof. destruct 1 as [|c s Hc _]; simpl; auto. Qed.

Lemma append_nonempty (f x : str) :
  match x with [] => f | _ :: _ => f ++ x end = f ++ x.
Proof. destruct x; [now rewrite app_nil_r | reflexivity]. Qed.

Lemma not_Infinity s :
  Forall (fun c => isDecimalChar c = true) s -> str_eqb s (chars "Infinity") = false.
Proof.
  intros H. unfold str_eqb. destruct (list_eq_dec ascii_dec s (chars "Infinity")) as [E|]; [|reflexivity].
  rewrite E in H. inversion H; discriminate.
Qed.

Lemma StrUnsignedDecimalLiteral_parts negative int (dot : bool) frac :
  Forall (fun c => isDigit c = true) int ->
  Forall (fun c => isDigit c = true) frac ->
  (dot = false -> frac = []) ->
  StrUnsignedDecimalLiteral negative (int ++ (if dot then ["."] else []) ++ frac)
  = literalValue negative int dot frac.
Proof.
  intros Hi Hf Hdot. unfold StrUnsignedDecimalLiteral.
  rewrite not_Infinity.
  2:{ apply Forall_app; split; [|apply Forall_app; split].
      - eapply Forall_impl; [|exact Hi]. apply digit_decimalChar.
      - destruct dot; repeat constructor.
      - eapply Forall_impl; [|exact Hf]. apply digit_decimalChar. }
  rewrite takeWhile_app, dropWhile_app by assumption.
  destruct dot.
  - cbn [app]. rewrite dropWhile_stop by reflexivity.
    rewrite takeWhile_stop by reflexivity. rewrite app_nil_r.
    rewrite takeWhile_id, dropWhile_all by assumption.
    unfold literalValue. destruct int, frac; reflexivity.
  - rewrite (Hdot eq_refl). cbn [app takeWhile dropWhile]. rewrite app_nil_r.
    unfold literalValue. destruct int; reflexivity.
Qed.

Lemma StringToNumber_canonical (sg int : str) (dot : bool) (frac : str) :
  sg = [] \/ sg = ["-"] ->
  Forall (fun c => isDigit c = true) int ->
  Forall (fun c => isDigit c = true) frac ->
  (dot = false -> frac = []) ->
  StringToNumber (sg ++ int ++ (if dot then ["."] else []) ++ frac)
  = match sg, int, dot with
    | [], [], false => Zero false
    | [], _, _ => literalValue false int dot frac
    | _ :: _, _, _ => literalValue true int dot frac
    end.
Proof.
  intros Hs Hi Hf Hdot.
  assert (Hbody : Forall (fun c => isDecimalChar c = true)
                         (int ++ (if dot then ["."] else []) ++ frac)).
  { apply Forall_app; split; [|apply Forall_app; split].
    - eapply Forall_impl; [|exact Hi]. apply digit_decimalChar.
    - destruct dot; repeat constructor.
    - eapply Forall_impl; [|exact Hf]. apply digit_decimalChar. }
  unfold StringToNumber. rewrite trim_id.
  2:{ apply Forall_app; split.
      - destruct Hs as [->| ->]; repeat constructor.
      - eapply Forall_impl; [|exact Hbody]. apply decimalChar_not_space. }
  destruct Hs as [->| ->]; cbn [app].
  - rewrite <- (StrUnsignedDecimalLiteral_parts false int dot frac Hi Hf Hdot).
    destruct (int ++ (if dot then ["."] else []) ++ frac) as [|c s'] eqn:E.
    + destruct int; [|discriminate]. destruct dot; [discriminate|]. reflexivity.
    + inversion Hbody as [|? ? Hc Hs']; subst.
      rewrite (decimalChar_neq c "-"), (decimalChar_neq c "+") by (reflexivity || assumption).
      rewrite !(startsWith_other _ s' _ Hs')
        by (intros ? ?; apply decimalChar_neq; [reflexivity | assumption]).
      rewrite !andb_false_r.
      destruct int as [|i int']; [destruct dot|]; try reflexivity.
      rewrite (Hdot eq_refl) in E. discriminate.
  - change ("-" =? "-") with true. cbv iota.
    apply StrUnsignedDecimalLiteral_parts; assumption.
Qed.

Lemma decimalValue_not_NaN negative int frac e :
  decimalValue negative int frac e <> NaN.
Proof.
  unfold decimalValue. destruct (dropWhile isZeroChar (int ++ frac)); discriminate.
Qed.

(** [toNumber] on a configuration whose decimal separator stands for
    itself: the host conversion of the canonical string of the stripped
    input. *)
Lemma toNumber_steps o c value :
  ClassLiteral (decimalSeparator o) = true ->
  toNumber o (c :: value)
  = Normal (StringToNumber
              (canonicalString
                 (decompose (decimalSeparator o)
                    (String_replaceAll (c :: value) (groupSeparatorRegex o) (fun _ => []))))).
Proof.
  intros H. unfold toNumber.
  set (stripped := String_replaceAll _ _ _).
  destruct (String_match_literal o stripped H) as (m & -> & ->).
  cbn [hd_error notEmptyString tryCatch ToString].
  unfold canonicalString, separatorText.
  set (p := decompose _ stripped).
  do 2 f_equal.
  rewrite append_nonempty. clearbody p.
  destruct (hasSeparator p), (fractionDigits p);
    cbn [notEmptyString]; rewrite <- ?app_assoc, ?app_nil_r; reflexivity.
Qed.

(** ** Grouping *)

Lemma list_ind3 (P : list ascii -> Prop) :
  P [] -> (forall a, P [a]) -> (forall a b, P [a; b]) ->
  (forall a b c rest, P rest -> P (a :: b :: c :: rest)) ->
  forall s : list ascii, P s.
Proof.
  intros H0 H1 H2 H3 s.
  assert (H : forall n s, length s <= n -> P s).
  { induction n as [|n IH]; intros [|a [|b [|c rest]]] Hl; simpl in Hl; auto; try lia.
    apply H3. apply IH. lia. }
  apply (H (length s)). lia.
Qed.

Lemma replaceFrom_threeDigits g fuel prev s :
  Forall (fun c => isDigit c = true) s ->
  length s < fuel ->
  replaceFrom fuel threeDigits (fun m => nth 0 (captures m) [] ++ [g]) prev s
  = insertEvery3 g s.
Proof.
  revert prev s. induction fuel as [|fuel IH]; intros prev s Hd Hlen; [lia|].
  cbn [replaceFrom]. unfold execAt, threeDigits.
  cbn [matchPieces matchTerms matchTerm].
  destruct s as [|a [|b [|c rest]]]; cbn [exactly].
  - reflexivity.
  - inversion Hd as [|? ? Ha _]; subst. rewrite Ha.
    rewrite IH; [reflexivity | constructor | simpl in *; lia].
  - inversion Hd as [|? ? Ha Hd']; subst. inversion Hd' as [|? ? Hb _]; subst.
    rewrite Ha, Hb.
    rewrite IH; [reflexivity | repeat constructor; assumption | simpl in *; lia].
  - inversion Hd as [|? ? Ha Hd']; subst. inversion Hd' as [|? ? Hb Hd'']; subst.
    inversion Hd'' as [|? ? Hc Hr]; subst.
    rewrite Ha, Hb, Hc. cbn [matched captures remaining app nth insertEvery3].
    do 4 f_equal. apply IH; [assumption | simpl in *; lia].
Qed.

Lemma insertEvery3_join g s :
  insertEvery3 g s = joinEvery3 g s ++ (if fullGroups s then [g] else []).
Proof.
  induction s as [| | |a b c rest IH] using list_ind3; try (simpl; now rewrite ?app_nil_r).
  cbn [insertEvery3 joinEvery3 fullGroups]. rewrite IH.
  destruct rest; reflexivity.
Qed.

Lemma joinEvery3_last g s :
  Forall (fun c => isDigit c = true) s -> s <> [] ->
  exists front x, joinEvery3 g s = front ++ [x] /\ isDigit x = true.
Proof.
  induction s as [|a|a b|a b c rest IH] using list_ind3; intros Hd Hne.
  - contradiction.
  - exists [], a. inversion Hd; auto.
  - exists [a], b. inversion Hd as [|? ? _ Hd']; inversion Hd'; auto.
  - inversion Hd as [|? ? _ Hd1]; subst. inversion Hd1 as [|? ? _ Hd2]; subst.
    inversion Hd2 as [|? ? Hc Hr]; subst.
    cbn [joinEvery3]. destruct rest as [|r rest'].
    + exists [a; b], c. auto.
    + destruct (IH Hr ltac:(discriminate)) as (front & x & -> & Hx).
      exists (a :: b :: c :: g :: front), x. auto.
Qed.

Lemma removeChar_join g s :
  isDigit g = false ->
  Forall (fun c => isDigit c = true) s ->
  removeChar g (joinEvery3 g s) = s.
Proof.
  intros Hg. induction s as [|a|a b|a b c rest IH] using list_ind3; intros Hd.
  - reflexivity.
  - now apply removeChar_digits.
  - now apply removeChar_digits.
  - cbn [joinEvery3]. destruct rest as [|r rest'].
    + now apply removeChar_digits.
    + inversion Hd as [|? ? Ha Hd1]; subst. inversion Hd1 as [|? ? Hb Hd2]; subst.
      inversion Hd2 as [|? ? Hc Hr]; subst.
      unfold removeChar in *. cbn [filter].
      rewrite (class_neq isDigit a g Ha Hg), (class_neq isDigit b g Hb Hg),
        (class_neq isDigit c g Hc Hg), Ascii.eqb_refl.
      cbn [negb]. now rewrite (IH Hr).
Qed.

Lemma joinEvery3_chars g s :
  Forall (fun c => isDigit c = true) s ->
  Forall (fun c => isDigit c = true \/ c = g) (joinEvery3 g s).
Proof.
  induction s as [|a|a b|a b c rest IH] using list_ind3; intros Hd;
    try (eapply Forall_impl; [|exact Hd]; now left).
  cbn [joinEvery3]. destruct rest as [|r rest'].
  - eapply Forall_impl; [|exact Hd]; now left.
  - inversion Hd as [|? ? Ha Hd1]; subst. inversion Hd1 as [|? ? Hb Hd2]; subst.
    inversion Hd2 as [|? ? Hc Hr]; subst.
    repeat (constructor; [auto|]). now apply IH.
Qed.

(** Counting positions from the start of the joined string, the separator
    sits exactly at the positions 3, 7, 11, ... *)
Lemma joinEvery3_positions g s :
  isDigit g = false ->
  Forall (fun c => isDigit c = true) s ->
  forall i x, nth_error (joinEvery3 g s) i = Some x -> (x = g <-> i mod 4 = 3).
Proof.
  intros Hg. induction s as [|a|a b|a b c rest IH] using list_ind3; intros Hd i x Hi.
  - destruct i; discriminate.
  - destruct i as [|[|i]]; try discriminate. simpl in Hi. injection Hi as <-.
    inversion Hd; subst. split; [intros ->; congruence | discriminate].
  - inversion Hd as [|? ? Ha Hd1]; subst. inversion Hd1 as [|? ? Hb _]; subst.
    destruct i as [|[|[|i]]]; try discriminate; simpl in Hi; injection Hi as <-;
      (split; [intros ->; congruence | discriminate]).
  - inversion Hd as [|? ? Ha Hd1]; subst. inversion Hd1 as [|? ? Hb Hd2]; subst.
    inversion Hd2 as [|? ? Hc Hr]; subst.
    cbn [joinEvery3] in Hi. destruct rest as [|r rest'].
    + destruct i as [|[|[|[|i]]]]; try discriminate; simpl in Hi; injection Hi as <-;
        (split; [intros ->; congruence | discriminate]).
    + destruct i as [|[|[|[|i]]]]; simpl in Hi.
      * injection Hi as <-. split; [intros ->; congruence | discriminate].
      * injection Hi as <-. split; [intros ->; congruence | discriminate].
      * injection Hi as <-. split; [intros ->; congruence | discriminate].
      * injection Hi as <-. split; reflexivity.
      * rewrite (IH Hr i x Hi).
        change (S (S (S (S i)))) with (4 + i).
        replace (4 + i) with (i + 1 * 4) by lia.
        now rewrite Nat.Div0.mod_add.
Qed.

(** [setGroupSeparators] on a digit string: reverse, join the runs of three
    with the separator, reverse. *)
Lemma setGroupSeparators_join o value :
  isDigit (groupSeparator o) = false ->
  Forall (fun c => isDigit c = true) value ->
  setGroupSeparators o value = rev (joinEvery3 (groupSeparator o) (rev value)).
Proof.
  intros Hg Hd. unfold setGroupSeparators, String_reverse, String_replaceAll.
  assert (Hr : Forall (fun c => isDigit c = true) (rev value)) by now apply Forall_rev.
  rewrite replaceFrom_threeDigits by (assumption || lia).
  rewrite insertEvery3_join, rev_app_distr.
  destruct (fullGroups (rev value)).
  - cbn [rev app String_startsWith]. now rewrite Ascii.eqb_refl.
  - cbn [rev app].
    destruct (rev value) as [|a s] eqn:E; [reflexivity|].
    destruct (joinEvery3_last (groupSeparator o) (a :: s) Hr ltac:(discriminate))
      as (front & x & -> & Hx).
    rewrite rev_app_distr. cbn [rev app String_startsWith].
    now rewrite (class_neq isDigit x _ Hx Hg).
Qed.

(** ** The steps of [toString] *)

Lemma toString_steps o x :
  ClassLiteral (decimalSeparator o) = true ->
  let p := decompose (decimalSeparator o) (valueAsString o x) in
  toString o x
  = Normal (sign p ++ groupedInteger o (integerDigits p) ++ fractionText o p).
Proof.
  intros H p. unfold toString.
  set (source := if strictEquals x (Zero false) then _ else _).
  assert (Hs : source = valueAsString o x).
  { unfold source, valueAsString. destruct x as [| | [|] |]; reflexivity. }
  rewrite Hs. fold p.
  destruct (String_match_literal o (valueAsString o x) H) as (m & -> & ->).
  fold p. clearbody p. clear Hs source.
  cbn [hd_error String_length ToString notEmptyString].
  unfold fractionText, groupedInteger, separatorText.
  generalize (setGroupSeparators o
                (String_replaceAll (integerDigits p) (groupSeparatorRegex o)
                   (fun _ => []))) as grouped.
  intros grouped.
  destruct (precision o) as [|n] eqn:Ep.
  - cbn [bind Nat.ltb Nat.leb andb].
    destruct (integerDigits p), (hasSeparator p), (fractionDigits p);
      cbn [notEmptyString]; rewrite <- ?app_assoc, ?app_nil_r; reflexivity.
  - cbn [bind]. change (0 <? S n)%nat with true. cbn [andb].
    destruct (length (fractionDigits p) <? S n)%nat.
    + cbn [bind]. destruct (integerDigits p); rewrite <- ?app_assoc; reflexivity.
    + destruct (integerDigits p), (hasSeparator p), (fractionDigits p);
        cbn [notEmptyString]; rewrite <- ?app_assoc, ?app_nil_r; reflexivity.
Qed.

(** ** Numbers in plain decimal notation *)

Lemma Number_toString_plain x :
  isFinite x = true -> exponentNotation x = false ->
  Number_toString x
  = shownSign x ++ plainInteger x
      ++ (if plainHasPoint x then "." :: plainFraction x else []).
Proof.
  destruct x as [| |z|negative digits n]; try discriminate; intros _ He.
  - reflexivity.
  - unfold exponentNotation in He. apply negb_false_iff in He.
    apply andb_true_iff in He as [H6 H21].
    unfold Number_toString, shownSign, plainInteger, plainHasPoint, plainFraction.
    rewrite H21, H6. f_equal.
    destruct (Z.of_nat (length digits) <=? n)%Z; cbn [andb negb].
    + now rewrite app_nil_r.
    + destruct (0 <? n)%Z eqn:E0; cbn [andb].
      * reflexivity.
      * apply Z.ltb_ge in E0. apply Z.leb_le in E0. rewrite E0. reflexivity.
Qed.

Lemma canonical_digits negative digits n :
  canonical (Finite negative digits n) = true ->
  Forall (fun c => isDigit c = true) digits
  /\ (exists h t, digits = h :: t /\ isZeroChar h = false)
  /\ (exists f l, digits = f ++ [l] /\ isZeroChar l = false).
Proof.
  unfold canonical. intros H.
  apply andb_true_iff in H as [H Hl]. apply andb_true_iff in H as [Hd Hh].
  apply negb_true_iff in Hl, Hh.
  split; [now apply forallb_Forall|].
  destruct digits as [|h t]; [discriminate|]. split.
  - now exists h, t.
  - destruct (exists_last (l := h :: t) ltac:(discriminate)) as (f & l & E).
    exists f, l. split; [exact E|]. rewrite E in Hl. now rewrite last_last in Hl.
Qed.

Lemma zeros_all n : Forall (fun c => isZeroChar c = true) (repeat "0" n).
Proof. induction n; simpl; constructor; auto. Qed.

Lemma zeros_digits n : Forall (fun c => isDigit c = true) (repeat "0" n).
Proof. induction n; simpl; constructor; auto. Qed.

Lemma strip_trailing_zeros (ds f : str) l m :
  ds = f ++ [l] -> isZeroChar l = false ->
  rev (dropWhile isZeroChar (rev (ds ++ repeat "0" m))) = ds.
Proof.
  intros -> Hl.
  rewrite rev_app_distr, rev_repeat, (dropWhile_app _ _ _ (zeros_all m)).
  rewrite rev_app_distr. cbn [rev app].
  rewrite dropWhile_stop by exact Hl.
  cbn [rev]. now rewrite rev_involutive.
Qed.

(** The value of a literal whose digits are those of a canonical number
    between a run of leading and a run of trailing zeros. *)
Lemma decimalValue_padded negative int frac digits n a m :
  canonical (Finite negative digits n) = true ->
  int ++ frac = repeat "0" a ++ digits ++ repeat "0" m ->
  decimalValue negative int frac 0
  = Finite negative digits (Z.of_nat (length int) - Z.of_nat a).
Proof.
  intros Hc E.
  destruct (canonical_digits _ _ _ Hc) as (_ & (h & t & Eh & Hh) & (f & l & El & Hl)).
  unfold decimalValue. rewrite E.
  rewrite (dropWhile_app _ _ _ (zeros_all a)).
  assert (Es : dropWhile isZeroChar (digits ++ repeat "0" m) = digits ++ repeat "0" m).
  { rewrite Eh. cbn [app]. now apply dropWhile_stop. }
  rewrite Es.
  destruct (digits ++ repeat "0" m) as [|x rest] eqn:Ed.
  { rewrite Eh in Ed. discriminate. }
  rewrite <- Ed. rewrite (strip_trailing_zeros digits f l m El Hl).
  f_equal. rewrite !length_app, repeat_length. lia.
Qed.

Lemma plain_digits x :
  canonical x = true ->
  Forall (fun c => isDigit c = true) (plainInteger x)
  /\ Forall (fun c => isDigit c = true) (plainFraction x)
  /\ plainInteger x <> []
  /\ (plainHasPoint x = false -> plainFraction x = []).
Proof.
  destruct x as [| |z|negative digits n]; intros Hc;
    try (repeat split; (repeat constructor) || discriminate || reflexivity).
  destruct (canonical_digits _ _ _ Hc) as (Hd & (h & t & Eh & Hh) & _).
  unfold plainInteger, plainFraction, plainHasPoint.
  destruct (Z.leb_spec (Z.of_nat (length digits)) n) as [Hk|Hk]; cbn [negb].
  - repeat split; try constructor.
    + apply Forall_app; split; [assumption | apply zeros_digits].
    + rewrite Eh. discriminate.
  - destruct (Z.ltb_spec 0 n) as [H0|H0].
    + repeat split.
      * rewrite <- (firstn_skipn (Z.to_nat n)) in Hd. apply Forall_app in Hd. tauto.
      * rewrite <- (firstn_skipn (Z.to_nat n)) in Hd. apply Forall_app in Hd. tauto.
      * rewrite Eh. destruct (Z.to_nat n) eqn:En; [lia | discriminate].
      * discriminate.
    + repeat split.
      * repeat constructor.
      * apply Forall_app; split; [apply zeros_digits | assumption].
      * discriminate.
      * discriminate.
Qed.

(** Reading back the digits of the host representation, with any number
    of zeros appended to the fraction, gives the number. *)
Lemma decimalValue_plain negative digits n m :
  canonical (Finite negative digits n) = true ->
  let x := Finite negative digits n in
  decimalValue negative (plainInteger x) (plainFraction x ++ repeat "0" m) 0 = x.
Proof.
  intros Hc x.
  destruct (canonical_digits _ _ _ Hc) as (Hd & (h & t & Eh & Hh) & _).
  unfold x, plainInteger, plainFraction.
  destruct (Z.leb_spec (Z.of_nat (length digits)) n) as [Hk|Hk].
  - rewrite (decimalValue_padded negative _ _ digits n 0
               (Z.to_nat (n - Z.of_nat (length digits)) + m) Hc).
    + f_equal. rewrite length_app, repeat_length. lia.
    + cbn [app repeat]. now rewrite repeat_app, <- app_assoc.
  - destruct (Z.ltb_spec 0 n) as [H0|H0].
    + rewrite (decimalValue_padded negative _ _ digits n 0 m Hc).
      * f_equal. rewrite length_firstn. lia.
      * cbn [app repeat]. now rewrite app_assoc, firstn_skipn.
    + rewrite (decimalValue_padded negative _ _ digits n (S (Z.to_nat (- n))) m Hc).
      * f_equal. cbn [length]. lia.
      * cbn [app repeat]. now rewrite <- app_assoc.
Qed.

Lemma decimalValue_zero negative m :
  decimalValue negative ["0"] (repeat "0" m) 0 = Zero negative.
Proof.
  unfold decimalValue.
  change (["0"] ++ repeat "0" m) with (repeat "0" (S m)).
  now rewrite (dropWhile_all _ _ (zeros_all (S m))).
Qed.

(** ** Decomposing a text of known shape *)

Lemma decompose_parts d sg int (dot : bool) frac :
  sg = [] \/ sg = ["-"] ->
  Forall (fun c => isDigit c = true) int -> int <> [] ->
  Forall (fun c => isDigit c = true) frac ->
  isDigit d = false ->
  (dot = false -> frac = []) ->
  decompose d (sg ++ int ++ (if dot then d :: frac else []))
  = {| sign := sg; integerDigits := int; hasSeparator := dot; fractionDigits := frac |}.
Proof.
  intros Hs Hi Hne Hf Hd Hdot. unfold decompose.
  assert (Hsign : optionalChar (only "-") (sg ++ int ++ (if dot then d :: frac else [])) = sg).
  { destruct Hs as [->| ->]; [|reflexivity].
    destruct int as [|i int']; [contradiction|]. inversion Hi; subst.
    cbn [app optionalChar]. unfold only.
    now rewrite (class_neq isDigit i "-"). }
  rewrite Hsign.
  assert (Hskip : skipn (length sg) (sg ++ int ++ (if dot then d :: frac else []))
                  = int ++ (if dot then d :: frac else [])).
  { destruct Hs as [->| ->]; reflexivity. }
  rewrite Hskip, takeWhile_app, dropWhile_app by assumption.
  destruct dot.
  - rewrite takeWhile_stop, dropWhile_stop by assumption.
    cbn [optionalChar]. unfold only. rewrite Ascii.eqb_refl.
    cbn [length skipn]. rewrite app_nil_r, takeWhile_id by assumption. reflexivity.
  - rewrite (Hdot eq_refl). cbn. now rewrite app_nil_r.
Qed.

Lemma replaceChar_absent s x y :
  Forall (fun c => (c =? x) = false) s -> String_replaceChar s x y = s.
Proof. induction 1 as [|c s Hc _ IH]; simpl; [reflexivity|]. now rewrite Hc, IH. Qed.

Lemma replaceChar_first s rest x y :
  Forall (fun c => (c =? x) = false) s ->
  String_replaceChar (s ++ x :: rest) x y = s ++ y :: rest.
Proof.
  induction 1 as [|c s Hc _ IH]; simpl.
  - now rewrite Ascii.eqb_refl.
  - now rewrite Hc, IH.
Qed.

Lemma signPrefix_cases negative :
  signPrefix negative = [] \/ signPrefix negative = ["-"].
Proof. destruct negative; [now right | now left]. Qed.

Lemma formattedSign_cases x : formattedSign x = [] \/ formattedSign x = ["-"].
Proof. destruct x; try (now left); apply signPrefix_cases. Qed.

Lemma shownSign_cases x : shownSign x = [] \/ shownSign x = ["-"].
Proof. destruct x; try (now left); apply signPrefix_cases. Qed.

(** The text that [toString] decomposes, for a number in plain notation. *)
Lemma valueAsString_plain o x :
  isFinite x = true -> canonical x = true -> exponentNotation x = false ->
  valueAsString o x
  = formattedSign x ++ plainInteger x
      ++ (if plainHasPoint x then decimalSeparator o :: plainFraction x else []).
Proof.
  intros Hf Hc He. unfold valueAsString.
  rewrite (Number_toString_plain x Hf He).
  destruct (plain_digits x Hc) as (Hi & _ & _ & _).
  assert (Hpre : Forall (fun c => (c =? ".") = false) (shownSign x ++ plainInteger x)).
  { apply Forall_app; split.
    - destruct (shownSign_cases x) as [->| ->]; repeat constructor.
    - eapply Forall_impl; [|exact Hi]. intros c Hd. now apply (class_neq isDigit c "."). }
  assert (Hrep :
            String_replaceChar
              (shownSign x ++ plainInteger x
                 ++ (if plainHasPoint x then "." :: plainFraction x else []))
              "." (decimalSeparator o)
            = shownSign x ++ plainInteger x
                ++ (if plainHasPoint x then decimalSeparator o :: plainFraction x else [])).
  { rewrite !app_assoc. destruct (plainHasPoint x).
    - now apply replaceChar_first.
    - rewrite !app_nil_r. now apply replaceChar_absent. }
  rewrite Hrep. destruct x as [| |[|]|]; reflexivity.
Qed.

Lemma decompose_valueAsString o x :
  isFinite x = true -> canonical x = true -> exponentNotation x = false ->
  isDigit (decimalSeparator o) = false ->
  decompose (decimalSeparator o) (valueAsString o x) = plainParts (formattedSign x) x.
Proof.
  intros Hf Hc He Hd. rewrite (valueAsString_plain o x Hf Hc He).
  destruct (plain_digits x Hc) as (Hi & Hfr & Hne & Hp).
  apply decompose_parts; auto using formattedSign_cases.
Qed.

Lemma hostParts_plain x :
  isFinite x = true -> canonical x = true -> exponentNotation x = false ->
  hostParts x = plainParts (shownSign x) x.
Proof.
  intros Hf Hc He. unfold hostParts. rewrite (Number_toString_plain x Hf He).
  destruct (plain_digits x Hc) as (Hi & Hfr & Hne & Hp).
  apply decompose_parts; auto using shownSign_cases.
Qed.

(** ** Formatting and parsing back *)

Lemma groupedInteger_join o int :
  isDigit (groupSeparator o) = false ->
  IdentityEscape (groupSeparator o) = true ->
  Forall (fun c => isDigit c = true) int -> int <> [] ->
  groupedInteger o int = rev (joinEvery3 (groupSeparator o) (rev int)).
Proof.
  intros Hg Hid Hd Hne. unfold groupedInteger.
  destruct int as [|i int']; [contradiction|].
  rewrite (strip_literal o _ Hid), (removeChar_digits _ _ Hg Hd).
  now apply setGroupSeparators_join.
Qed.

Lemma removeChar_rev g s : removeChar g (rev s) = rev (removeChar g s).
Proof. apply filter_rev. Qed.

Lemma removeChar_app g s t : removeChar g (s ++ t) = removeChar g s ++ removeChar g t.
Proof. apply filter_app. Qed.

Lemma removeChar_absent g s :
  Forall (fun c => (c =? g) = false) s -> removeChar g s = s.
Proof.
  induction 1 as [|c s Hc _ IH]; simpl; [reflexivity|]. now rewrite Hc, IH.
Qed.

Lemma removeChar_grouped o int :
  isDigit (groupSeparator o) = false ->
  IdentityEscape (groupSeparator o) = true ->
  Forall (fun c => isDigit c = true) int -> int <> [] ->
  removeChar (groupSeparator o) (groupedInteger o int) = int.
Proof.
  intros Hg Hid Hd Hne. rewrite groupedInteger_join by assumption.
  rewrite removeChar_rev, removeChar_join by (assumption || now apply Forall_rev).
  apply rev_involutive.
Qed.

(** The fraction text is the separator and a digit run, or nothing. *)
Lemma fractionText_shape o p :
  Forall (fun c => isDigit c = true) (fractionDigits p) ->
  (hasSeparator p = false -> fractionDigits p = []) ->
  exists (dot : bool) m,
    fractionText o p
    = (if dot then decimalSeparator o :: fractionDigits p ++ repeat "0" m else [])
    /\ (dot = false -> fractionDigits p ++ repeat "0" m = []).
Proof.
  intros Hd Hs. unfold fractionText, separatorText.
  destruct ((0 <? precision o)%nat && (length (fractionDigits p) <? precision o)%nat).
  - exists true, (precision o - length (fractionDigits p)). split; [reflexivity | discriminate].
  - exists (hasSeparator p), 0. cbn [repeat]. rewrite app_nil_r.
    destruct (hasSeparator p); [split; [reflexivity | discriminate]|].
    rewrite (Hs eq_refl). split; reflexivity.
Qed.

Lemma roundTrip o x :
  isDigit (groupSeparator o) = false ->
  isDigit (decimalSeparator o) = false ->
  (groupSeparator o =? decimalSeparator o) = false ->
  (groupSeparator o =? "-") = false ->
  literalPatterns o = true ->
  isFinite x = true -> canonical x = true -> exponentNotation x = false ->
  exists s, toString o x = Normal s /\ toNumber o s = Normal x.
Proof.
  intros Hg Hd Hgd Hminus Hlit Hf Hc He.
  apply andb_true_iff in Hlit as [Hid Hcl].
  rewrite (toString_steps o x Hcl), (decompose_valueAsString o x Hf Hc He Hd).
  destruct (plain_digits x Hc) as (Hi & Hfr & Hne & Hp).
  destruct (fractionText_shape o (plainParts (formattedSign x) x) Hfr Hp)
    as (dot & m & -> & Hdot).
  unfold plainParts in *. cbn [sign integerDigits hasSeparator fractionDigits] in *.
  eexists; split; [reflexivity|].
  match goal with |- toNumber o ?s = _ => set (out := s) end.
  assert (Hstrip :
            removeChar (groupSeparator o) out
            = formattedSign x ++ plainInteger x
                ++ (if dot then decimalSeparator o :: plainFraction x ++ repeat "0" m else [])).
  { unfold out. rewrite !removeChar_app. f_equal; [|f_equal].
    - destruct (formattedSign_cases x) as [->| ->]; [reflexivity|].
      unfold removeChar. cbn [filter]. rewrite Ascii.eqb_sym, Hminus. reflexivity.
    - now apply removeChar_grouped.
    - destruct dot; [|reflexivity]. apply removeChar_absent. constructor.
      + now rewrite Ascii.eqb_sym.
      + apply Forall_app; split;
          (eapply Forall_impl; [|apply Hfr || apply zeros_digits]);
          intros c Hcd; now apply (class_neq isDigit c _ Hcd). }
  destruct out as [|c out'] eqn:Eout.
  { apply (f_equal (@length ascii)) in Hstrip. rewrite !length_app in Hstrip.
    destruct (plainInteger x); [contradiction | simpl in Hstrip; lia]. }
  rewrite (toNumber_steps o c out' Hcl), (strip_literal o _ Hid), Hstrip.
  assert (Hfz : Forall (fun c => isDigit c = true) (plainFraction x ++ repeat "0" m)).
  { apply Forall_app; split; [assumption | apply zeros_digits]. }
  rewrite (decompose_parts _ _ _ dot _ (formattedSign_cases x) Hi Hne Hfz Hd Hdot).
  unfold canonicalString; cbn [sign integerDigits hasSeparator fractionDigits].
  rewrite (StringToNumber_canonical _ _ dot _ (formattedSign_cases x) Hi Hfz Hdot).
  f_equal.
  assert (Hval : forall negative,
             literalValue negative (plainInteger x) dot (plainFraction x ++ repeat "0" m)
             = decimalValue negative (plainInteger x) (plainFraction x ++ repeat "0" m) 0).
  { intros negative. unfold literalValue. destruct (plainInteger x); [contradiction | reflexivity]. }
  destruct x as [| |z|negative digits n]; try discriminate.
  - destruct z; cbn [formattedSign signPrefix]; rewrite ?Hval;
      [| change (plainInteger (Zero false)) with ["0"]]; cbn [plainInteger plainFraction app];
      apply decimalValue_zero.
  - destruct (plainInteger (Finite negative digits n)) as [|i int'] eqn:Ei; [contradiction|].
    rewrite <- Ei in *.
    destruct negative; cbn [formattedSign signPrefix]; rewrite Hval;
      now apply decimalValue_plain.
Qed.

(** ** Output alphabet of the grouping step *)

Lemma insertEvery3_chars g s :
  Forall (fun c => isDigit c = true) s ->
  Forall (fun c => isDigit c = true \/ c = g) (insertEvery3 g s).
Proof.
  induction s as [|a|a b|a b c rest IH] using list_ind3; intros Hd;
    try (eapply Forall_impl; [|exact Hd]; now left).
  inversion Hd as [|? ? Ha Hd1]; subst. inversion Hd1 as [|? ? Hb Hd2]; subst.
  inversion Hd2 as [|? ? Hc Hr]; subst.
  cbn [insertEvery3]. repeat (constructor; [auto|]). now apply IH.
Qed.

Lemma setGroupSeparators_chars o value :
  Forall (fun c => isDigit c = true) value ->
  Forall (fun c => isDigit c = true \/ c = groupSeparator o) (setGroupSeparators o value).
Proof.
  intros Hd. unfold setGroupSeparators, String_reverse, String_replaceAll, String_slice1.
  rewrite replaceFrom_threeDigits by (now apply Forall_rev || lia).
  assert (H : Forall (fun c => isDigit c = true \/ c = groupSeparator o)
                     (rev (insertEvery3 (groupSeparator o) (rev value)))).
  { apply Forall_rev, insertEvery3_chars. now apply Forall_rev. }
  destruct (String_startsWith _ _); [|exact H].
  destruct (rev (insertEvery3 (groupSeparator o) (rev value))); [constructor|].
  now inversion H.
Qed.

Lemma groupedInteger_chars o int :
  Forall (fun c => isDigit c = true) int ->
  Forall (fun c => isDigit c = true \/ c = groupSeparator o) (groupedInteger o int).
Proof.
  intros Hd. unfold groupedInteger. destruct int; [constructor|].
  apply setGroupSeparators_chars, strip_digits, Hd.
Qed.

Lemma setGroupSeparators_no_leading o value :
  isDigit (groupSeparator o) = false ->
  Forall (fun c => isDigit c = true) value -> value <> [] ->
  String_startsWith (setGroupSeparators o value) (groupSeparator o) = false.
Proof.
  intros Hg Hd Hne. rewrite setGroupSeparators_join by assumption.
  assert (Hr : rev value <> []).
  { intros E. apply Hne. rewrite <- (rev_involutive value), E. reflexivity. }
  destruct (joinEvery3_last (groupSeparator o) (rev value)
              ltac:(now apply Forall_rev) Hr) as (front & x & -> & Hx).
  rewrite rev_app_distr. cbn [rev app String_startsWith].
  exact (class_neq isDigit x _ Hx Hg).
Qed.

(** ** Host representations *)

Example Number_toString_exponent :
  Number_toString oneSextillion = chars "1e+21"
  /\ Number_toString (Finite false (chars "15") (-6)) = chars "1.5e-7"
  /\ Number_toString (Finite true (chars "12345") 22) = chars "-1.2345e+21".
Proof. repeat split; vm_compute; reflexivity. Qed.

Example Number_toString_plain_notation :
  Number_toString (Finite false (chars "1") (-5)) = chars "0.000001"
  /\ Number_toString (Finite false (chars "12345") 1) = chars "1.2345"
  /\ Number_toString (Finite false (chars "12345678901234568") 21)
     = chars "123456789012345680000"
  /\ Number_toString (Zero true) = chars "0".
Proof. repeat split; vm_compute; reflexivity. Qed.

Example StringToNumber_examples :
  StringToNumber [] = Zero false
  /\ StringToNumber (chars "-") = NaN
  /\ StringToNumber (chars ".") = NaN
  /\ StringToNumber (chars "-0.00") = Zero true
  /\ StringToNumber (chars "5.") = Finite false (chars "5") 1
  /\ StringToNumber (chars "12undefined") = NaN.
Proof. repeat split; vm_compute; reflexivity. Qed.

(** ** The examples of the README *)

Example toString_123 :
  toString defaultOptions (Finite false (chars "123") 3) = Normal (chars "123,00").
Proof. reflexivity. Qed.

Example toString_100000_12 :
  toString defaultOptions (Finite false (chars "10000012") 6)
  = Normal (chars "100 000,12").
Proof. reflexivity. Qed.

Example toString_minus_9873_1 :
  toString defaultOptions (Finite true (chars "98731") 4) = Normal (chars "-9 873,10").
Proof. reflexivity. Qed.

Example toNumber_123 :
  toNumber defaultOptions (chars "123") = Normal (Finite false (chars "123") 3).
Proof. reflexivity. Qed.

(** ** Separators that do not stand for themselves *)

(** A minus sign as group separator is removed together with the sign. *)
Example minus_group_separator_drops_sign :
  let o := {| precision := 2; groupSeparator := "-"; decimalSeparator := "," |} in
  validConfiguration o = true
  /\ toString o (Finite true (chars "1234") 4) = Normal (chars "-1-234,00")
  /\ toNumber o (chars "-1-234,00") = Normal (Finite false (chars "1234") 4).
Proof. repeat split; vm_compute; reflexivity. Qed.

(** The letter [b] after a backslash is the word boundary assertion: the
    separator is inserted by [toString] and not removed by [toNumber]. *)
Example boundary_group_separator_stays :
  let o := {| precision := 2; groupSeparator := "b"; decimalSeparator := "," |} in
  validConfiguration o = true
  /\ toString o (Finite false (chars "1234") 4) = Normal (chars "1b234,00")
  /\ toNumber o (chars "1b234,00") = Normal (Finite false (chars "1") 1).
Proof. repeat split; vm_compute; reflexivity. Qed.

(** The letter [d] after a backslash is the digit class: the digits are
    removed and the separator stays. *)
Example digit_class_group_separator :
  let o := {| precision := 2; groupSeparator := "d"; decimalSeparator := "," |} in
  validConfiguration o = true
  /\ toString o (Finite false (chars "1234") 4) = Normal (chars ",00")
  /\ toNumber o (chars "12d34") = Normal (Zero false).
Proof. repeat split; vm_compute; reflexivity. Qed.

(** With a backslash as decimal separator the pattern has three groups:
    [toString] raises on the missing fraction, [toNumber] appends it as
    text. *)
Example backslash_decimal_separator :
  let o := {| precision := 2; groupSeparator := " "; decimalSeparator := "\" |} in
  validConfiguration o = true
  /\ toString o (Finite false (chars "15") 1) = Throw TypeError
  /\ toNumber o (chars "15") = Normal NaN.
Proof. repeat split; vm_compute; reflexivity. Qed.

(** * The claims *)

Lemma valid_separators o :
  validConfiguration o = true ->
  isDigit (groupSeparator o) = false
  /\ isDigit (decimalSeparator o) = false
  /\ (groupSeparator o =? decimalSeparator o) = false.
Proof.
  unfold validConfiguration, isSeparatorChar. intros Hv.
  apply andb_true_iff in Hv as [Hv Hgd]. apply andb_true_iff in Hv as [Hg Hd].
  apply andb_true_iff in Hg as [_ Hg]. apply andb_true_iff in Hd as [_ Hd].
  apply negb_true_iff in Hg, Hd, Hgd. auto.
Qed.

Lemma strictEquals_refl x : x <> NaN -> strictEquals x x = true.
Proof.
  destruct x as [|b|b|b ds n]; intros H; try reflexivity; try contradiction.
  - apply Bool.eqb_reflx.
  - cbn [strictEquals]. rewrite Bool.eqb_reflx, Z.eqb_refl.
    unfold str_eqb. destruct (list_eq_dec ascii_dec ds ds); [reflexivity | contradiction].
Qed.

(** C1, as stated, fails.  Under the default options the integer 1e21 has
    an empty fraction, is formatted from its exponent notation as [1,00] and
    parsed back as 1.  With the minus sign as group separator, a valid
    configuration, -1234 is formatted as [-1-234,00] and parsed back as
    1234. *)
Lemma roundTrip_fails :
  (validConfiguration defaultOptions = true
   /\ isFinite oneSextillion = true
   /\ canonical oneSextillion = true
   /\ length (fractionDigits (hostParts oneSextillion)) <= precision defaultOptions
   /\ ~ roundTrips defaultOptions oneSextillion)
  /\ (validConfiguration minusOptions = true
      /\ isFinite (Finite true (chars "1234") 4) = true
      /\ canonical (Finite true (chars "1234") 4) = true
      /\ length (fractionDigits (hostParts (Finite true (chars "1234") 4)))
         <= precision minusOptions
      /\ ~ roundTrips minusOptions (Finite true (chars "1234") 4)).
Proof.
  assert (Hno : forall o x s y,
             toString o x = Normal s -> toNumber o s = Normal y ->
             strictEquals y x = false -> ~ roundTrips o x).
  { intros o x s y Hs Hy Hne (s' & y' & Hs' & Hy' & He).
    rewrite Hs in Hs'. injection Hs' as <-.
    rewrite Hy in Hy'. injection Hy' as <-.
    rewrite Hne in He. discriminate He. }
  split; (split; [vm_compute; reflexivity|]);
    (split; [vm_compute; reflexivity|]);
    (split; [vm_compute; reflexivity|]);
    (split; [vm_compute; repeat constructor|]).
  - apply (Hno _ _ (chars "1,00") (Finite false (chars "1") 1));
      vm_compute; reflexivity.
  - apply (Hno _ _ (chars "-1-234,00") (Finite false (chars "1234") 4));
      vm_compute; reflexivity.
Qed.

(** C1 (amended).  For every finite number whose host representation needs
    no exponent notation and whose fraction has at most [precision] digits,
    and every valid configuration whose group separator is not the minus sign
    and whose separators stand for themselves in the derived patterns,
    [toNumber (toString x)] is [x]. *)
Theorem roundTrip_plain_decimal o x :
  validConfiguration o = true ->
  literalPatterns o = true ->
  (groupSeparator o =? "-") = false ->
  isFinite x = true -> canonical x = true -> exponentNotation x = false ->
  length (fractionDigits (hostParts x)) <= precision o ->
  roundTrips o x.
Proof.
  intros Hv Hlit Hminus Hf Hc He _.
  destruct (valid_separators o Hv) as (Hg & Hd & Hgd).
  destruct (roundTrip o x Hg Hd Hgd Hminus Hlit Hf Hc He) as (s & Hs & Hn).
  exists s, x. repeat split; try assumption.
  apply strictEquals_refl. destruct x; discriminate.
Qed.

Lemma roundTrip_plain_decimal_witness :
  roundTrips defaultOptions (Finite true (chars "98731") 4).
Proof.
  apply (roundTrip_plain_decimal defaultOptions (Finite true (chars "98731") 4));
    try reflexivity.
  vm_compute. repeat constructor.
Defined.

(** C2, as stated, fails: [abc] is not empty and decomposes to no digit,
    and [toNumber] returns 0 for it. *)
Lemma toNumber_no_digits_is_zero :
  integerDigits (decompose "," (removeChar " " (chars "abc"))) = []
  /\ fractionDigits (decompose "," (removeChar " " (chars "abc"))) = []
  /\ toNumber defaultOptions (chars "abc") = Normal (Zero false)
  /\ toNumber defaultOptions (chars "abc") <> Normal NaN.
Proof. repeat split; try reflexivity. discriminate. Qed.

(** C2 (amended).  On a configuration whose separators stand for themselves
    in the derived patterns, [toNumber] never raises; it returns the
    not-a-number sentinel exactly when the input is empty, or decomposes to
    no digits but to a sign marker or a decimal separator; a non-empty input
    that decomposes to nothing at all gives 0. *)
Theorem toNumber_NaN_iff o value :
  literalPatterns o = true ->
  let p := decompose (decimalSeparator o) (removeChar (groupSeparator o) value) in
  exists v,
    toNumber o value = Normal v
    /\ (v = NaN <->
        value = []
        \/ (integerDigits p = [] /\ fractionDigits p = []
            /\ (sign p <> [] \/ hasSeparator p = true)))
    /\ (value <> [] -> canonicalString p = [] -> v = Zero false).
Proof.
  intros Hlit p. apply andb_true_iff in Hlit as [Hid Hcl].
  destruct value as [|c value'].
  { exists NaN. split; [reflexivity|]. split; [|contradiction].
    split; [now left | reflexivity]. }
  rewrite (toNumber_steps o c value' Hcl), (strip_literal o _ Hid). fold p.
  eexists; split; [reflexivity|].
  unfold canonicalString.
  pose proof (decompose_no_separator (decimalSeparator o)
                (removeChar (groupSeparator o) (c :: value'))) as Hns.
  pose proof (StringToNumber_canonical (sign p) (integerDigits p) (hasSeparator p)
                (fractionDigits p) (decompose_sign _ _)
                (decompose_integer _ _) (decompose_fraction _ _) Hns) as Hval.
  fold p in Hns. rewrite Hval. clear Hval. clearbody p.
  unfold literalValue.
  destruct (sign p) as [|s0 sg], (integerDigits p) as [|i0 int],
           (hasSeparator p), (fractionDigits p) as [|f0 frac];
    (split;
     [ split;
       [ intros E; try discriminate E;
         try (exfalso; exact (decimalValue_not_NaN _ _ _ _ E));
         right; repeat split; auto; left; discriminate
       | intros [E|(E1 & E2 & E3)]; try discriminate; try reflexivity;
         try (destruct E3 as [E3|E3]; [now contradiction E3 | discriminate E3]) ]
     | intros _ E; try discriminate E; try reflexivity ]).
  all: try (specialize (Hns eq_refl); discriminate Hns).
Qed.

Lemma toNumber_NaN_iff_witness :
  exists v,
    toNumber defaultOptions (chars "-") = Normal v
    /\ (v = NaN <->
        chars "-" = []
        \/ (integerDigits (decompose "," (removeChar " " (chars "-"))) = []
            /\ fractionDigits (decompose "," (removeChar " " (chars "-"))) = []
            /\ (sign (decompose "," (removeChar " " (chars "-"))) <> []
                \/ hasSeparator (decompose "," (removeChar " " (chars "-"))) = true)))
    /\ (chars "-" <> [] ->
        canonicalString (decompose "," (removeChar " " (chars "-"))) = [] ->
        v = Zero false).
Proof. apply (toNumber_NaN_iff defaultOptions (chars "-")). reflexivity. Defined.

(** C3.  With the closing bracket as decimal separator, a valid
    configuration, the extraction pattern matches nowhere and formatting a
    zero of either sign raises instead of returning a string. *)
Theorem toString_zero_raises_on_bracket :
  validConfiguration bracketOptions = true
  /\ toString bracketOptions (Zero true) = Throw TypeError
  /\ toString bracketOptions (Zero false) = Throw TypeError.
Proof. repeat split; vm_compute; reflexivity. Qed.

(** On the configurations whose separators stand for themselves in the
    derived patterns the sign of zero is kept: negative zero is formatted
    with a leading minus sign, positive zero starts with its digit. *)
Lemma toString_zero_sign o :
  validConfiguration o = true -> literalPatterns o = true ->
  exists rest,
    toString o (Zero true) = Normal ("-" :: "0" :: rest)
    /\ toString o (Zero false) = Normal ("0" :: rest).
Proof.
  intros Hv Hlit.
  destruct (valid_separators o Hv) as (Hg & Hd & _).
  apply andb_true_iff in Hlit as [Hid Hcl].
  rewrite !(toString_steps o _ Hcl).
  rewrite !decompose_valueAsString by (reflexivity || assumption).
  unfold plainParts; cbn [sign integerDigits plainInteger formattedSign signPrefix].
  rewrite groupedInteger_join by (try assumption; try discriminate; repeat constructor).
  cbn [rev app joinEvery3].
  exists (fractionText o
            {| sign := []; integerDigits := ["0"];
               hasSeparator := plainHasPoint (Zero false);
               fractionDigits := plainFraction (Zero false) |}).
  split; reflexivity.
Qed.

(** C4.  The number 1.2345 has four fraction digits.  With the backslash
    as decimal separator and [precision] 0, a valid configuration, the
    extraction pattern has three groups, the separator and the fraction are
    lost and the missing fourth element is appended as text; with the closing
    bracket and [precision] 2 formatting raises.  In neither case are the
    separator and the four fraction digits emitted. *)
Theorem toString_loses_fraction_on_special_separator :
  validConfiguration (backslashOptions 0) = true
  /\ fractionDigits (hostParts (Finite false (chars "12345") 1)) = chars "2345"
  /\ toString (backslashOptions 0) (Finite false (chars "12345") 1)
     = Normal (chars "1undefined")
  /\ validConfiguration bracketOptions = true
  /\ toString bracketOptions (Finite false (chars "12345") 1) = Throw TypeError.
Proof. repeat split; vm_compute; reflexivity. Qed.

(** On the valid configurations whose decimal separator stands for itself
    in the extraction pattern: when the fraction of the host decimal
    representation has at least [precision] digits, or [precision] is 0, the
    output ends with the separator as found and the fraction digits
    unchanged; with precision 2 the number 1.2345 keeps its four fraction
    digits. *)
Theorem toString_passes_fraction_through :
  (forall o x,
      validConfiguration o = true ->
      ClassLiteral (decimalSeparator o) = true ->
      isFinite x = true -> canonical x = true -> exponentNotation x = false ->
      precision o = 0 \/ precision o <= length (fractionDigits (hostParts x)) ->
      toString o x
      = Normal (formattedSign x
                  ++ groupedInteger o (integerDigits (hostParts x))
                  ++ separatorText (decimalSeparator o) (hostParts x)
                  ++ fractionDigits (hostParts x)))
  /\ toString defaultOptions (Finite false (chars "12345") 1) = Normal (chars "1,2345").
Proof.
  split; [|reflexivity].
  intros o x Hv Hcl Hf Hc He Hp.
  destruct (valid_separators o Hv) as (_ & Hd & _).
  rewrite (toString_steps o x Hcl), (decompose_valueAsString o x Hf Hc He Hd).
  rewrite (hostParts_plain x Hf Hc He).
  unfold plainParts, fractionText, separatorText.
  cbn [sign integerDigits hasSeparator fractionDigits].
  assert (Hc0 : ((0 <? precision o)%nat
                 && (length (plainFraction x) <? precision o)%nat) = false).
  { rewrite (hostParts_plain x Hf Hc He) in Hp. cbn [plainParts fractionDigits] in Hp.
    apply andb_false_iff. destruct Hp as [Hp|Hp].
    - left. now rewrite Hp.
    - right. apply Nat.ltb_ge. exact Hp. }
  now rewrite Hc0.
Qed.

Lemma toString_passes_fraction_through_witness :
  toString defaultOptions (Finite true (chars "1234567125") 7)
  = Normal (chars "-1 234 567,125").
Proof.
  rewrite (proj1 toString_passes_fraction_through defaultOptions
             (Finite true (chars "1234567125") 7));
    try reflexivity.
  right. vm_compute. repeat constructor.
Defined.

(** C5.  The number 123 has no fraction digits.  With [precision] 2 and
    the backslash or the closing bracket as decimal separator, two valid
    configurations, formatting it raises instead of emitting the separator
    and two zeros. *)
Theorem toString_padding_raises_on_special_separator :
  validConfiguration (backslashOptions 2) = true
  /\ fractionDigits (hostParts (Finite false (chars "123") 3)) = []
  /\ toString (backslashOptions 2) (Finite false (chars "123") 3) = Throw TypeError
  /\ validConfiguration bracketOptions = true
  /\ toString bracketOptions (Finite false (chars "123") 3) = Throw TypeError.
Proof. repeat split; vm_compute; reflexivity. Qed.

(** On the valid configurations whose decimal separator stands for itself
    in the extraction pattern: when [precision] is positive and the fraction
    of the host representation is shorter, the output ends with the decimal
    separator and the fraction padded with zeros to exactly [precision]
    digits, also when the fraction is empty; with the default options 123 is
    formatted as [123,00]. *)
Theorem toString_pads_fraction :
  (forall o x,
      validConfiguration o = true ->
      ClassLiteral (decimalSeparator o) = true ->
      isFinite x = true -> canonical x = true -> exponentNotation x = false ->
      0 < precision o ->
      length (fractionDigits (hostParts x)) < precision o ->
      let padded :=
        fractionDigits (hostParts x)
          ++ repeat "0" (precision o - length (fractionDigits (hostParts x))) in
      toString o x
      = Normal (formattedSign x
                  ++ groupedInteger o (integerDigits (hostParts x))
                  ++ [decimalSeparator o] ++ padded)
      /\ length padded = precision o)
  /\ toString defaultOptions (Finite false (chars "123") 3) = Normal (chars "123,00").
Proof.
  split; [|reflexivity].
  intros o x Hv Hcl Hf Hc He Hp Hlen padded.
  destruct (valid_separators o Hv) as (_ & Hd & _). split.
  - rewrite (toString_steps o x Hcl), (decompose_valueAsString o x Hf Hc He Hd).
    unfold padded. clear padded. rewrite (hostParts_plain x Hf Hc He) in *.
    unfold plainParts, fractionText in *.
    cbn [sign integerDigits hasSeparator fractionDigits] in *.
    apply Nat.ltb_lt in Hp, Hlen. now rewrite Hp, Hlen.
  - unfold padded. rewrite length_app, repeat_length. lia.
Qed.

Lemma toString_pads_fraction_witness :
  toString defaultOptions (Finite true (chars "98731") 4) = Normal (chars "-9 873,10").
Proof.
  refine (proj1 (proj1 toString_pads_fraction defaultOptions
                   (Finite true (chars "98731") 4) _ _ _ _ _ _ _));
    try reflexivity; vm_compute; repeat constructor.
Defined.

(** C6.  With the letter d as group separator, a valid configuration, the
    pattern that clears the integer digits of group separators is the digit
    class: the integer digits 1234 of 1234.5 are deleted before the grouping
    step and the output has no integer part, so that removing the group
    separator from it does not give the integer digits back. *)
Theorem toString_deletes_integer_on_digit_class :
  validConfiguration digitClassOptions = true
  /\ integerDigits (hostParts (Finite false (chars "12345") 4)) = chars "1234"
  /\ toString digitClassOptions (Finite false (chars "12345") 4) = Normal (chars ",50")
  /\ removeChar "d" (chars ",50") <> chars "1234" ++ chars ",50".
Proof. repeat split; try (vm_compute; reflexivity). discriminate. Qed.

(** For every valid configuration and non-empty digit string, the grouping
    step puts the group separator exactly at the positions 3, 7, 11, ...
    counted from the rightmost character, produces no leading separator, and
    gives back the digits when the separators are removed; when the
    separators stand for themselves in the derived patterns, the integer part
    of the output of [toString] is the grouping of the integer digits of the
    host decimal representation. *)
Theorem grouping_every_three o :
  validConfiguration o = true ->
  (forall digits,
      Forall (fun c => isDigit c = true) digits -> digits <> [] ->
      (forall i c,
          nth_error (rev (setGroupSeparators o digits)) i = Some c ->
          (c = groupSeparator o <-> i mod 4 = 3))
      /\ String_startsWith (setGroupSeparators o digits) (groupSeparator o) = false
      /\ removeChar (groupSeparator o) (setGroupSeparators o digits) = digits)
  /\ (forall x,
         literalPatterns o = true ->
         isFinite x = true -> canonical x = true -> exponentNotation x = false ->
         exists grouped tail,
           toString o x = Normal (formattedSign x ++ grouped ++ tail)
           /\ grouped = setGroupSeparators o (integerDigits (hostParts x))
           /\ removeChar (groupSeparator o) grouped = integerDigits (hostParts x)).
Proof.
  intros Hv. destruct (valid_separators o Hv) as (Hg & Hds & _). split.
  - intros digits Hd Hne. repeat split.
    + rewrite setGroupSeparators_join in H by assumption.
      rewrite rev_involutive in H.
      apply (joinEvery3_positions _ _ Hg (Forall_rev Hd) i c H).
    + rewrite setGroupSeparators_join in H by assumption.
      rewrite rev_involutive in H.
      apply (joinEvery3_positions _ _ Hg (Forall_rev Hd) i c H).
    + now apply setGroupSeparators_no_leading.
    + rewrite setGroupSeparators_join by assumption.
      rewrite removeChar_rev, removeChar_join by (assumption || now apply Forall_rev).
      apply rev_involutive.
  - intros x Hlit Hf Hc He.
    apply andb_true_iff in Hlit as [Hid Hcl].
    destruct (plain_digits x Hc) as (Hi & _ & Hne & _).
    rewrite (toString_steps o x Hcl), (decompose_valueAsString o x Hf Hc He Hds).
    rewrite (hostParts_plain x Hf Hc He).
    unfold plainParts; cbn [sign integerDigits].
    eexists _, _. split; [reflexivity|].
    split.
    + unfold groupedInteger. destruct (plainInteger x) as [|i int'] eqn:E; [contradiction|].
      now rewrite (strip_literal o _ Hid), (removeChar_digits _ _ Hg Hi).
    + now apply removeChar_grouped.
Qed.

Lemma grouping_every_three_witness :
  removeChar " " (setGroupSeparators defaultOptions (chars "1234567")) = chars "1234567".
Proof.
  refine (proj2 (proj2 (proj1 (grouping_every_three defaultOptions _)
                          (chars "1234567") _ _)));
    [reflexivity | repeat constructor | discriminate].
Defined.

Lemma toNumber_parseSteps o value :
  literalPatterns o = true -> value <> [] ->
  toNumber o value = Normal (parseSteps o value).
Proof.
  intros Hlit Hne. apply andb_true_iff in Hlit as [Hid Hcl].
  destruct value as [|c value']; [contradiction|].
  rewrite (toNumber_steps o c value' Hcl), (strip_literal o _ Hid). reflexivity.
Qed.

(** C7, as stated, fails on the empty input: the steps of [parse] applied to
    it give 0, the conversion of the empty canonical string, and [toNumber]
    returns the not-a-number sentinel. *)
Lemma toNumber_empty_differs_from_steps :
  toNumber defaultOptions [] = Normal NaN
  /\ parseSteps defaultOptions [] = Zero false
  /\ toNumber defaultOptions [] <> Normal (parseSteps defaultOptions []).
Proof. repeat split; try reflexivity. discriminate. Qed.

(** C7 (amended).  For every configuration whose separators stand for
    themselves in the derived patterns and every non-empty input,
    [toNumber] removes exactly the group separators, decomposes the rest,
    reassembles the canonical string and returns its host conversion; with
    the default options [100 000,12] gives 100000.12 and [-9 873,10] gives
    -9873.1. *)
Theorem toNumber_follows_parse_steps :
  (forall o value,
      literalPatterns o = true -> value <> [] ->
      toNumber o value = Normal (parseSteps o value))
  /\ toNumber defaultOptions (chars "100 000,12")
     = Normal (Finite false (chars "10000012") 6)
  /\ toNumber defaultOptions (chars "-9 873,10")
     = Normal (Finite true (chars "98731") 4).
Proof.
  split; [exact toNumber_parseSteps | split; reflexivity].
Qed.

Lemma toNumber_follows_parse_steps_witness :
  toNumber defaultOptions (chars "1 234,5") = Normal (Finite false (chars "12345") 4).
Proof.
  rewrite (proj1 toNumber_follows_parse_steps defaultOptions (chars "1 234,5"));
    [reflexivity | reflexivity | discriminate].
Defined.

(** C8.  With the closing bracket as decimal separator, a valid
    configuration, [toString] raises for the finite number 123; with the
    backslash and [precision] 0 its output for 1.2345 contains letters. *)
Theorem toString_raises_or_emits_letters :
  validConfiguration bracketOptions = true
  /\ isFinite (Finite false (chars "123") 3) = true
  /\ toString bracketOptions (Finite false (chars "123") 3) = Throw TypeError
  /\ validConfiguration (backslashOptions 0) = true
  /\ toString (backslashOptions 0) (Finite false (chars "12345") 1)
     = Normal (chars "1undefined")
  /\ ~ wellFormedOutput (backslashOptions 0) (chars "1undefined").
Proof.
  repeat split; try (vm_compute; reflexivity).
  intros (body & [E|E] & Hb); [|discriminate E]. subst body.
  inversion Hb as [|? ? _ Hb1]; subst. inversion Hb1 as [|? ? Hu _]; subst.
  destruct Hu as [Hu|[Hu|Hu]]; discriminate Hu.
Qed.

(** On a valid configuration whose decimal separator stands for itself in
    the extraction pattern, [toString] returns a string for every finite
    number, and the string is an optional leading minus sign followed by
    digits and the two configured separators only. *)
Theorem toString_total_well_formed o x :
  validConfiguration o = true ->
  ClassLiteral (decimalSeparator o) = true ->
  isFinite x = true ->
  exists s, toString o x = Normal s /\ wellFormedOutput o s.
Proof.
  intros _ Hcl _. rewrite (toString_steps o x Hcl).
  set (p := decompose (decimalSeparator o) (valueAsString o x)).
  eexists; split; [reflexivity|].
  exists (groupedInteger o (integerDigits p) ++ fractionText o p). split.
  - destruct (decompose_sign (decimalSeparator o) (valueAsString o x)) as [E|E];
      fold p in E; rewrite E; [now left | now right].
  - apply Forall_app; split.
    + eapply Forall_impl; [|apply groupedInteger_chars, decompose_integer].
      cbv beta. intros c [H|H]; auto.
    + assert (Hf : Forall (fun c => isDigit c = true \/ c = groupSeparator o
                                    \/ c = decimalSeparator o) (fractionDigits p)).
      { eapply Forall_impl; [|apply decompose_fraction]. cbv beta. auto. }
      unfold fractionText, separatorText.
      destruct (_ && _).
      * constructor; [auto|]. apply Forall_app; split; [exact Hf|].
        eapply Forall_impl; [|apply zeros_digits]. cbv beta. auto.
      * apply Forall_app; split; [|exact Hf].
        destruct (hasSeparator p); [|constructor].
        constructor; [auto | constructor].
Qed.

Lemma toString_total_well_formed_witness :
  exists s,
    toString defaultOptions (Finite true (chars "98731") 4) = Normal s
    /\ wellFormedOutput defaultOptions s.
Proof.
  apply (toString_total_well_formed defaultOptions (Finite true (chars "98731") 4));
    reflexivity.
Defined.

(** C9.  The input [abc] is not empty and starts with neither a minus
    sign, a digit nor the decimal separator.  With the backslash as decimal
    separator, a valid configuration, the missing fourth element is appended
    as text and the result is the not-a-number sentinel; with the circumflex
    the letter a is taken as the separator and the result is the sentinel
    too; with the closing bracket [toNumber] raises.  In no case is the
    result 0. *)
Theorem toNumber_unparsable_on_special_separator :
  validConfiguration (backslashOptions 2) = true
  /\ toNumber (backslashOptions 2) (chars "abc") = Normal NaN
  /\ validConfiguration circumflexOptions = true
  /\ toNumber circumflexOptions (chars "abc") = Normal NaN
  /\ validConfiguration bracketOptions = true
  /\ toNumber bracketOptions (chars "abc") = Throw TypeError.
Proof. repeat split; vm_compute; reflexivity. Qed.

(** On a configuration whose separators stand for themselves in the
    derived patterns, a non-empty input whose first character after the
    removal of the group separators is neither a minus sign, a digit nor the
    decimal separator decomposes to four empty parts, its canonical string is
    empty, the host converts the empty string to 0, and [toNumber] returns 0;
    with the default options [abc] gives 0. *)
Theorem toNumber_unparsable_is_zero :
  (forall o value c rest,
      literalPatterns o = true ->
      value <> [] ->
      removeChar (groupSeparator o) value = c :: rest ->
      (c =? "-") = false -> isDigit c = false -> (c =? decimalSeparator o) = false ->
      decompose (decimalSeparator o) (removeChar (groupSeparator o) value)
      = {| sign := []; integerDigits := []; hasSeparator := false; fractionDigits := [] |}
      /\ canonicalString
           (decompose (decimalSeparator o) (removeChar (groupSeparator o) value)) = []
      /\ StringToNumber [] = Zero false
      /\ toNumber o value = Normal (Zero false))
  /\ toNumber defaultOptions (chars "abc") = Normal (Zero false).
Proof.
  split; [|reflexivity].
  intros o value c rest Hlit Hne Hstrip Hminus Hdigit Hsep.
  assert (Hdec : decompose (decimalSeparator o) (removeChar (groupSeparator o) value)
                 = {| sign := []; integerDigits := []; hasSeparator := false;
                      fractionDigits := [] |}).
  { rewrite Hstrip. unfold decompose, only. cbn [optionalChar].
    rewrite Hminus. cbn [length skipn takeWhile dropWhile].
    rewrite Hdigit. cbn [optionalChar]. rewrite Hsep.
    cbn [length skipn takeWhile]. now rewrite Hdigit. }
  repeat split; try assumption.
  - now rewrite Hdec.
  - rewrite (toNumber_parseSteps o value Hlit Hne).
    unfold parseSteps. now rewrite Hdec.
Qed.

Lemma toNumber_unparsable_is_zero_witness :
  toNumber defaultOptions (chars " x 12") = Normal (Zero false).
Proof.
  refine (proj2 (proj2 (proj2 (proj1 toNumber_unparsable_is_zero defaultOptions
                                 (chars " x 12") "x" (chars "12") _ _ _ _ _ _))));
    try reflexivity.
  discriminate.
Defined.

(** C10.  With the default options the three non-finite numbers are
    formatted as the separator and the padding only, after the sign of the
    negative infinity. *)
Theorem toString_non_finite :
  toString defaultOptions NaN = Normal (chars ",00")
  /\ toString defaultOptions (Infinity false) = Normal (chars ",00")
  /\ toString defaultOptions (Infinity true) = Normal (chars "-,00").
Proof. repeat split; vm_compute; reflexivity. Qed.


(** * Further properties of the converter *)

(** ** Decomposing a number text followed by other text *)

Lemma decompose_parts_rest d sg int (dot : bool) frac rest :
  sg = ["-"]
  \/ (sg = []
      /\ String_startsWith (int ++ (if dot then d :: frac else []) ++ rest) "-" = false) ->
  Forall (fun c => isDigit c = true) int ->
  Forall (fun c => isDigit c = true) frac ->
  isDigit d = false ->
  (dot = false -> frac = []) ->
  stopsNumber d dot rest ->
  decompose d (sg ++ int ++ (if dot then d :: frac else []) ++ rest)
  = {| sign := sg; integerDigits := int; hasSeparator := dot; fractionDigits := frac |}.
Proof.
  intros Hs Hi Hf Hd Hdot Hrest. unfold decompose.
  set (body := int ++ (if dot then d :: frac else []) ++ rest) in *.
  assert (Hsign : optionalChar (only "-") (sg ++ body) = sg).
  { destruct Hs as [->|[-> Hb]]; [reflexivity|]. cbn [app].
    destruct body as [|b body']; [reflexivity|].
    cbn [String_startsWith] in Hb. cbn [optionalChar]. unfold only. now rewrite Hb. }
  rewrite Hsign.
  assert (Hskip : skipn (length sg) (sg ++ body) = body).
  { destruct Hs as [->|[-> _]]; reflexivity. }
  rewrite Hskip. unfold body.
  rewrite takeWhile_app, dropWhile_app by assumption.
  assert (Hstop : forall r, stopsNumber d dot r ->
                       takeWhile isDigit r = [] /\ dropWhile isDigit r = r).
  { intros [|c r] Hr; [split; reflexivity|]. destruct Hr as [Hc _].
    split; [now apply takeWhile_stop | now apply dropWhile_stop]. }
  destruct dot.
  - cbn [app]. rewrite takeWhile_stop, dropWhile_stop by assumption.
    cbn [optionalChar]. unfold only. rewrite Ascii.eqb_refl.
    cbn [length skipn]. rewrite app_nil_r.
    rewrite takeWhile_app by assumption.
    destruct (Hstop rest Hrest) as [-> _]. now rewrite app_nil_r.
  - rewrite (Hdot eq_refl). cbn [app].
    destruct (Hstop rest Hrest) as [-> ->]. rewrite app_nil_r.
    destruct rest as [|c r]; [reflexivity|].
    destruct Hrest as [Hc Hcd]. cbn [optionalChar]. unfold only.
    rewrite (Hcd eq_refl). cbn [length skipn]. now rewrite takeWhile_stop.
Qed.

Lemma removeChar_none_left g s :
  Forall (fun c => (c =? g) = false) (removeChar g s).
Proof.
  induction s as [|c s IH]; [constructor|]. cbn [removeChar filter].
  destruct (c =? g) eqn:E; cbn [negb]; [exact IH|]. constructor; assumption.
Qed.

Lemma removeChar_idempotent g s : removeChar g (removeChar g s) = removeChar g s.
Proof. apply removeChar_absent, removeChar_none_left. Qed.

Lemma removeChar_prefix g s a b :
  removeChar g s = a ++ b -> removeChar g a = a /\ removeChar g b = b.
Proof.
  intros H. pose proof (removeChar_none_left g s) as Hn.
  rewrite H in Hn. apply Forall_app in Hn as [Ha Hb].
  split; now apply removeChar_absent.
Qed.

(** ** What [toNumber] ignores *)

(** X1.  On a configuration whose separators stand for themselves,
    [toNumber] reads the number text at the start of the input (after the
    removal of the group separators) and silently ignores whatever follows
    it: a sign, digits, an optional separator with digits, then a character
    that cannot continue the number and any further text give the same
    result as the number text alone. *)
Theorem toNumber_ignores_trailing_text o value sg int (dot : bool) frac c tail :
  literalPatterns o = true ->
  isDigit (decimalSeparator o) = false ->
  sg = [] \/ sg = ["-"] ->
  Forall (fun x => isDigit x = true) int -> int <> [] ->
  Forall (fun x => isDigit x = true) frac ->
  (dot = false -> frac = []) ->
  isDigit c = false ->
  (dot = false -> (c =? decimalSeparator o) = false) ->
  removeChar (groupSeparator o) value
  = sg ++ int ++ (if dot then decimalSeparator o :: frac else []) ++ c :: tail ->
  toNumber o value
  = toNumber o (sg ++ int ++ (if dot then decimalSeparator o :: frac else [])).
Proof.
  intros Hlit Hd Hs Hi Hne Hf Hdot Hc Hcd Hv.
  set (d := decimalSeparator o) in *. set (g := groupSeparator o) in *.
  assert (Hvne : value <> []).
  { intros ->. destruct Hs as [->| ->]; destruct int; discriminate || contradiction. }
  assert (Hwne : sg ++ int ++ (if dot then d :: frac else []) <> []).
  { destruct Hs as [->| ->]; destruct int; discriminate || contradiction. }
  rewrite (toNumber_parseSteps o value Hlit Hvne).
  rewrite (toNumber_parseSteps o _ Hlit Hwne).
  unfold parseSteps. fold d g. do 3 f_equal.
  assert (Hw : removeChar g (sg ++ int ++ (if dot then d :: frac else []))
               = sg ++ int ++ (if dot then d :: frac else [])).
  { apply (removeChar_prefix g value _ (c :: tail)).
    rewrite Hv, <- !app_assoc. reflexivity. }
  rewrite Hw, Hv.
  rewrite (decompose_parts d sg int dot frac Hs Hi Hne Hf Hd Hdot).
  apply decompose_parts_rest; try assumption.
  - destruct Hs as [->| ->]; [right; split; [reflexivity|] | now left].
    destruct int as [|i int']; [contradiction|]. inversion Hi; subst.
    cbn [app String_startsWith]. now apply (class_neq isDigit i "-").
  - cbn [stopsNumber]. split; assumption.
Qed.

Lemma toNumber_ignores_trailing_text_witness :
  toNumber defaultOptions (chars "-9 873,10 EUR") = toNumber defaultOptions (chars "-9873,10").
Proof.
  apply (toNumber_ignores_trailing_text defaultOptions (chars "-9 873,10 EUR")
           (chars "-") (chars "9873") true (chars "10") "E" (chars "UR"));
    try (vm_compute; reflexivity); try discriminate.
  - now right.
  - repeat constructor.
  - repeat constructor.
Defined.

(** X2.  On a configuration whose separators stand for themselves, group
    separators are ignored wherever they stand in a non-empty input: the
    result is that of the input without them; an input made of group
    separators only gives 0, where the empty input gives the not-a-number
    sentinel. *)
Theorem toNumber_ignores_group_separators o value :
  literalPatterns o = true -> value <> [] ->
  (removeChar (groupSeparator o) value <> [] ->
   toNumber o value = toNumber o (removeChar (groupSeparator o) value))
  /\ (removeChar (groupSeparator o) value = [] ->
      toNumber o value = Normal (Zero false) /\ toNumber o [] = Normal NaN).
Proof.
  intros Hlit Hne. rewrite (toNumber_parseSteps o value Hlit Hne). split.
  - intros Hr. rewrite (toNumber_parseSteps o _ Hlit Hr).
    unfold parseSteps. now rewrite removeChar_idempotent.
  - intros Hr. split; [|reflexivity]. unfold parseSteps. rewrite Hr. reflexivity.
Qed.

Lemma toNumber_ignores_group_separators_witness :
  toNumber defaultOptions (chars "1 2 3,4 5") = toNumber defaultOptions (chars "123,45").
Proof.
  apply (proj1 (toNumber_ignores_group_separators defaultOptions (chars "1 2 3,4 5")
                  eq_refl ltac:(discriminate))).
  discriminate.
Defined.

(** ** The shape of the output of [toString] *)

Lemma joinEvery3_length g s :
  length (joinEvery3 g s) = length s + (length s - 1) / 3.
Proof.
  induction s as [|a|a b|a b c rest IH] using list_ind3; try reflexivity.
  cbn [joinEvery3]. destruct rest as [|r rest']; [reflexivity|].
  cbn [length] in *. rewrite IH.
  replace (S (S (S (S (length rest')))) - 1) with (length rest' + 1 * 3) by lia.
  rewrite Nat.div_add by discriminate.
  replace (S (length rest') - 1) with (length rest') by lia. lia.
Qed.

(** X3.  On a valid configuration the grouping of a digit string of length
    [n] has length [n + (n - 1) / 3]: one separator for every complete group
    of three digits to the right of the leading group, and none for a string
    of at most three digits. *)
Theorem setGroupSeparators_length o digits :
  validConfiguration o = true ->
  Forall (fun c => isDigit c = true) digits ->
  length (setGroupSeparators o digits) = length digits + (length digits - 1) / 3
  /\ (length digits <= 3 -> setGroupSeparators o digits = digits).
Proof.
  intros Hv Hd. destruct (valid_separators o Hv) as (Hg & _ & _).
  rewrite (setGroupSeparators_join o digits Hg Hd). split.
  - now rewrite length_rev, joinEvery3_length, length_rev.
  - intros Hl. rewrite <- (rev_involutive digits) at 2. f_equal.
    rewrite <- length_rev in Hl.
    destruct (rev digits) as [|a [|b [|c [|e rest]]]]; try reflexivity.
    simpl in Hl. lia.
Qed.

Lemma setGroupSeparators_length_witness :
  length (setGroupSeparators defaultOptions (chars "1234567")) = 7 + (7 - 1) / 3.
Proof.
  apply (proj1 (setGroupSeparators_length defaultOptions (chars "1234567")
                  eq_refl ltac:(repeat constructor))).
Defined.

Lemma grouped_head_digit o int :
  isDigit (groupSeparator o) = false ->
  IdentityEscape (groupSeparator o) = true ->
  Forall (fun c => isDigit c = true) int -> int <> [] ->
  exists h t, groupedInteger o int = h :: t /\ isDigit h = true.
Proof.
  intros Hg Hid Hd Hne. rewrite (groupedInteger_join o int Hg Hid Hd Hne).
  assert (Hr : rev int <> []).
  { intros E. apply Hne. rewrite <- (rev_involutive int), E. reflexivity. }
  destruct (joinEvery3_last (groupSeparator o) (rev int)
              ltac:(now apply Forall_rev) Hr) as (front & x & -> & Hx).
  rewrite rev_app_distr. cbn [rev app]. now exists x, (rev front).
Qed.

(** X4.  On a valid configuration whose separators stand for themselves,
    the output of [toString] for a finite number in plain notation starts
    with a minus sign exactly when the number is negative or is the negative
    zero; otherwise it starts with a digit. *)
Theorem toString_leading_sign o x :
  validConfiguration o = true -> literalPatterns o = true ->
  isFinite x = true -> canonical x = true -> exponentNotation x = false ->
  exists h t,
    toString o x = Normal (formattedSign x ++ h :: t)
    /\ isDigit h = true
    /\ (String_startsWith (formattedSign x ++ h :: t) "-" = true
        <-> formattedSign x = ["-"]).
Proof.
  intros Hv Hlit Hf Hc He.
  destruct (valid_separators o Hv) as (Hg & Hd & _).
  apply andb_true_iff in Hlit as [Hid Hcl].
  destruct (plain_digits x Hc) as (Hi & _ & Hne & _).
  rewrite (toString_steps o x Hcl), (decompose_valueAsString o x Hf Hc He Hd).
  unfold plainParts at 1 2. cbn [sign integerDigits].
  destruct (grouped_head_digit o (plainInteger x) Hg Hid Hi Hne) as (h & t & -> & Hh).
  exists h, (t ++ fractionText o (plainParts (formattedSign x) x)).
  split; [reflexivity|]. split; [exact Hh|].
  destruct (formattedSign_cases x) as [E|E]; rewrite E; cbn [app String_startsWith].
  - rewrite (class_neq isDigit h "-" Hh eq_refl). split; discriminate.
  - split; reflexivity.
Qed.

Lemma toString_leading_sign_witness :
  exists h t,
    toString defaultOptions (Zero true) = Normal (formattedSign (Zero true) ++ h :: t)
    /\ isDigit h = true
    /\ (String_startsWith (formattedSign (Zero true) ++ h :: t) "-" = true
        <-> formattedSign (Zero true) = ["-"]).
Proof.
  apply (toString_leading_sign defaultOptions (Zero true)); reflexivity.
Defined.

(** X5.  On a valid configuration whose decimal separator stands for itself
    and is not the minus sign, the output of [toString] for a finite number in
    plain notation contains the decimal separator exactly once when
    [precision] is positive or the host representation has a fraction, and
    not at all otherwise. *)
Theorem toString_one_decimal_separator o x :
  validConfiguration o = true ->
  ClassLiteral (decimalSeparator o) = true ->
  (decimalSeparator o =? "-") = false ->
  isFinite x = true -> canonical x = true -> exponentNotation x = false ->
  exists s,
    toString o x = Normal s
    /\ count_occ ascii_dec s (decimalSeparator o)
       = if (0 <? precision o)%nat || hasSeparator (hostParts x) then 1 else 0.
Proof.
  intros Hv Hcl Hminus Hf Hc He.
  destruct (valid_separators o Hv) as (Hg & Hd & Hgd).
  destruct (plain_digits x Hc) as (Hi & Hfr & Hne & Hp).
  rewrite (toString_steps o x Hcl), (decompose_valueAsString o x Hf Hc He Hd).
  rewrite (hostParts_plain x Hf Hc He).
  unfold plainParts at 1 2 4. cbn [sign integerDigits hasSeparator].
  eexists; split; [reflexivity|].
  assert (Hnone : forall s,
             Forall (fun c => isDigit c = true \/ c = groupSeparator o) s ->
             count_occ ascii_dec s (decimalSeparator o) = 0).
  { intros s Hs. apply count_occ_not_In. intros Hin.
    rewrite Forall_forall in Hs. destruct (Hs _ Hin) as [Hx|Hx].
    - congruence.
    - rewrite <- Hx, Ascii.eqb_refl in Hgd. discriminate. }
  assert (Hdigits : forall s,
             Forall (fun c => isDigit c = true) s ->
             count_occ ascii_dec s (decimalSeparator o) = 0).
  { intros s Hs. apply Hnone. eapply Forall_impl; [|exact Hs]. cbv beta. auto. }
  rewrite !count_occ_app.
  rewrite (Hnone _ (groupedInteger_chars o _ Hi)).
  assert (Hsg : count_occ ascii_dec (formattedSign x) (decimalSeparator o) = 0).
  { destruct (formattedSign_cases x) as [->| ->]; [reflexivity|].
    apply count_occ_not_In. intros [E|[]].
    rewrite <- E, Ascii.eqb_refl in Hminus. discriminate. }
  rewrite Hsg. cbn [Nat.add].
  unfold fractionText, separatorText, plainParts. cbn [hasSeparator fractionDigits].
  destruct (0 <? precision o)%nat eqn:E0; cbn [andb orb].
  - destruct (length (plainFraction x) <? precision o)%nat eqn:El.
    + cbn [app]. rewrite count_occ_cons_eq by reflexivity.
      rewrite count_occ_app, (Hdigits _ Hfr), (Hdigits _ (zeros_digits _)). reflexivity.
    + destruct (plainHasPoint x) eqn:Ep.
      * cbn [app]. rewrite count_occ_cons_eq by reflexivity.
        now rewrite (Hdigits _ Hfr).
      * rewrite (Hp eq_refl) in El. apply Nat.ltb_lt in E0.
        apply Nat.ltb_ge in El. simpl in El. lia.
  - destruct (plainHasPoint x).
    + cbn [app]. rewrite count_occ_cons_eq by reflexivity.
      now rewrite (Hdigits _ Hfr).
    + cbn [app]. now apply Hdigits.
Qed.

Lemma toString_one_decimal_separator_witness :
  exists s,
    toString defaultOptions (Finite true (chars "98731") 4) = Normal s
    /\ count_occ ascii_dec s ","
       = if (0 <? 2)%nat || hasSeparator (hostParts (Finite true (chars "98731") 4))
         then 1 else 0.
Proof.
  apply (toString_one_decimal_separator defaultOptions (Finite true (chars "98731") 4));
    vm_compute; reflexivity.
Defined.

(** ** Formatting and parsing back, continued *)

(** X6.  On a valid configuration whose group separator is not the minus
    sign and whose separators stand for themselves, formatting a zero and
    parsing the result gives the zero of the same sign: the sign of the
    negative zero, which strict equality does not see, survives the round
    trip. *)
Theorem roundTrip_keeps_zero_sign o negative :
  validConfiguration o = true ->
  literalPatterns o = true ->
  (groupSeparator o =? "-") = false ->
  exists s,
    toString o (Zero negative) = Normal s
    /\ toNumber o s = Normal (Zero negative)
    /\ (String_startsWith s "-" = negative).
Proof.
  intros Hv Hlit Hminus.
  destruct (valid_separators o Hv) as (Hg & Hd & Hgd).
  destruct (roundTrip o (Zero negative) Hg Hd Hgd Hminus Hlit eq_refl eq_refl eq_refl)
    as (s & Hs & Hn).
  exists s. repeat split; try assumption.
  destruct (toString_zero_sign o Hv Hlit) as (rest & Hneg & Hpos).
  destruct negative.
  - rewrite Hneg in Hs. injection Hs as <-. reflexivity.
  - rewrite Hpos in Hs. injection Hs as <-. reflexivity.
Qed.

Lemma roundTrip_keeps_zero_sign_witness :
  exists s,
    toString defaultOptions (Zero true) = Normal s
    /\ toNumber defaultOptions s = Normal (Zero true)
    /\ (String_startsWith s "-" = true).
Proof.
  apply (roundTrip_keeps_zero_sign defaultOptions true); reflexivity.
Defined.

(** X7.  On a valid configuration whose group separator is not the minus
    sign and whose separators stand for themselves, [toString] is injective
    on the finite numbers in plain notation: two different numbers never have
    the same output. *)
Theorem toString_injective o x y :
  validConfiguration o = true ->
  literalPatterns o = true ->
  (groupSeparator o =? "-") = false ->
  isFinite x = true -> canonical x = true -> exponentNotation x = false ->
  isFinite y = true -> canonical y = true -> exponentNotation y = false ->
  x <> y -> toString o x <> toString o y.
Proof.
  intros Hv Hlit Hminus Hfx Hcx Hex Hfy Hcy Hey Hne Heq. apply Hne.
  destruct (valid_separators o Hv) as (Hg & Hd & Hgd).
  destruct (roundTrip o x Hg Hd Hgd Hminus Hlit Hfx Hcx Hex) as (s & Hs & Hn).
  destruct (roundTrip o y Hg Hd Hgd Hminus Hlit Hfy Hcy Hey) as (s' & Hs' & Hn').
  rewrite Hs, Hs' in Heq. injection Heq as <-.
  rewrite Hn in Hn'. now injection Hn'.
Qed.

Lemma toString_injective_witness :
  toString defaultOptions (Zero true) <> toString defaultOptions (Zero false).
Proof.
  apply (toString_injective defaultOptions (Zero true) (Zero false));
    try reflexivity.
  discriminate.
Defined.

(** ** Equal readings of different texts *)

Lemma dropWhile_length (p : ascii -> bool) (s : str) :
  length (dropWhile p s) <= length s.
Proof.
  induction s as [|c s IH]; simpl; [lia|]. destruct (p c); simpl; lia.
Qed.

Lemma dropWhile_nil (p : ascii -> bool) (s : str) :
  dropWhile p s = [] -> Forall (fun c => p c = true) s.
Proof.
  induction s as [|c s IH]; simpl; [constructor|].
  destruct (p c) eqn:E; [|discriminate]. intros H. constructor; auto.
Qed.

Lemma dropWhile_app_cons (p : ascii -> bool) (s t : str) x r :
  dropWhile p s = x :: r -> dropWhile p (s ++ t) = (x :: r) ++ t.
Proof.
  induction s as [|c s IH]; simpl; [discriminate|].
  destruct (p c); [exact IH|]. intros H. injection H as <- <-. reflexivity.
Qed.

Lemma decimalValue_leading_zero negative int frac e :
  decimalValue negative ("0" :: int) frac e = decimalValue negative int frac e.
Proof.
  unfold decimalValue. cbn [app dropWhile]. change (isZeroChar "0") with true. cbv iota.
  pose proof (dropWhile_length isZeroChar (int ++ frac)) as Hl.
  destruct (dropWhile isZeroChar (int ++ frac)) as [|x r]; [reflexivity|].
  f_equal. cbn [length] in *. lia.
Qed.

Lemma decimalValue_trailing_zeros negative int frac m e :
  decimalValue negative int (frac ++ repeat "0" m) e = decimalValue negative int frac e.
Proof.
  unfold decimalValue. rewrite app_assoc.
  destruct (dropWhile isZeroChar (int ++ frac)) as [|x r] eqn:E.
  - rewrite (dropWhile_app _ _ _ (dropWhile_nil _ _ E)).
    now rewrite (dropWhile_all _ _ (zeros_all m)).
  - rewrite (dropWhile_app_cons _ _ (repeat "0" m) _ _ E).
    pose proof (dropWhile_length isZeroChar (int ++ frac)) as Hl. rewrite E in Hl.
    assert (Hdigits : dropWhile isZeroChar (rev ((x :: r) ++ repeat "0" m))
                      = dropWhile isZeroChar (rev (x :: r))).
    { rewrite rev_app_distr, rev_repeat.
      now rewrite (dropWhile_app _ _ _ (zeros_all m)). }
    assert (Hexp : length ((int ++ frac) ++ repeat "0" m)
                   - length ((x :: r) ++ repeat "0" m)
                   = length (int ++ frac) - length (x :: r)).
    { rewrite !length_app. lia. }
    change ((x :: r) ++ repeat "0" m) with (x :: r ++ repeat "0" m) at 1.
    cbv iota. rewrite Hdigits, Hexp. reflexivity.
Qed.

Lemma removeChar_sign g sg :
  sg = [] \/ sg = ["-"] -> removeChar g sg = [] \/ removeChar g sg = ["-"].
Proof.
  intros [->| ->]; [now left|]. unfold removeChar. cbn [filter].
  destruct (negb ("-" =? g)); [now right | now left].
Qed.

(** The reading of a sign, integer digits, the separator and fraction
    digits, on a valid configuration whose separators stand for themselves
    and whose decimal separator is not the minus sign. *)
Lemma toNumber_number_text o sg int frac :
  validConfiguration o = true -> literalPatterns o = true ->
  (decimalSeparator o =? "-") = false ->
  sg = [] \/ sg = ["-"] ->
  Forall (fun c => isDigit c = true) int ->
  Forall (fun c => isDigit c = true) frac ->
  toNumber o (sg ++ int ++ decimalSeparator o :: frac)
  = Normal (literalValue
              (match removeChar (groupSeparator o) sg with [] => false | _ :: _ => true end)
              int true frac).
Proof.
  intros Hv Hlit Hminus Hs Hi Hf.
  destruct (valid_separators o Hv) as (Hg & Hd & Hgd).
  rewrite toNumber_parseSteps;
    [|assumption | destruct Hs as [->| ->]; destruct int; discriminate].
  unfold parseSteps. rewrite !removeChar_app.
  rewrite (removeChar_digits _ _ Hg Hi).
  assert (Hdf : removeChar (groupSeparator o) (decimalSeparator o :: frac)
                = decimalSeparator o :: frac).
  { apply removeChar_absent. constructor.
    - now rewrite Ascii.eqb_sym.
    - eapply Forall_impl; [|exact Hf]. intros c Hc. exact (class_neq isDigit c _ Hc Hg). }
  rewrite Hdf.
  pose proof (removeChar_sign (groupSeparator o) sg Hs) as Hs'.
  set (sg' := removeChar (groupSeparator o) sg) in *.
  pose proof (decompose_parts_rest (decimalSeparator o) sg' int true frac []) as Hp.
  cbn [app] in Hp. rewrite app_nil_r in Hp. rewrite Hp; try assumption; try discriminate.
  - unfold canonicalString. cbn [sign integerDigits hasSeparator fractionDigits].
    rewrite (StringToNumber_canonical sg' int true frac) by
        (assumption || discriminate || (destruct Hs'; auto)).
    f_equal. destruct Hs' as [->| ->]; destruct int; reflexivity.
  - destruct Hs' as [->| ->]; [right; split; [reflexivity|] | now left].
    destruct int as [|i int']; cbn [app String_startsWith].
    + exact Hminus.
    + inversion Hi; subst. now apply (class_neq isDigit i "-").
  - exact I.
Qed.

(** X8.  On a valid configuration whose separators stand for themselves
    and whose decimal separator is not the minus sign, a text without integer
    part, the separator followed by at least one digit, reads as the text
    with the integer part 0. *)
Theorem toNumber_missing_integer_is_zero o sg frac :
  validConfiguration o = true -> literalPatterns o = true ->
  (decimalSeparator o =? "-") = false ->
  sg = [] \/ sg = ["-"] ->
  Forall (fun c => isDigit c = true) frac -> frac <> [] ->
  toNumber o (sg ++ decimalSeparator o :: frac)
  = toNumber o (sg ++ "0" :: decimalSeparator o :: frac).
Proof.
  intros Hv Hlit Hminus Hs Hf Hne.
  pose proof (toNumber_number_text o sg [] frac Hv Hlit Hminus Hs (Forall_nil _) Hf)
    as H0.
  pose proof (toNumber_number_text o sg ["0"] frac Hv Hlit Hminus Hs
                ltac:(repeat constructor) Hf) as H1.
  cbn [app] in H0, H1. rewrite H0, H1.
  f_equal. unfold literalValue. destruct frac as [|f frac']; [contradiction|].
  symmetry. apply decimalValue_leading_zero.
Qed.

Lemma toNumber_missing_integer_is_zero_witness :
  toNumber defaultOptions (chars "-,5") = toNumber defaultOptions (chars "-0,5").
Proof.
  apply (toNumber_missing_integer_is_zero defaultOptions (chars "-") (chars "5"));
    try reflexivity.
  - now right.
  - repeat constructor.
  - discriminate.
Defined.

(** X9.  On a valid configuration whose separators stand for themselves
    and whose decimal separator is not the minus sign, zeros appended to the
    fraction do not change the result of [toNumber]: a text with integer
    digits reads the same with any number of trailing fraction zeros, also
    when the fraction is empty. *)
Theorem toNumber_trailing_zeros o sg int frac m :
  validConfiguration o = true -> literalPatterns o = true ->
  (decimalSeparator o =? "-") = false ->
  sg = [] \/ sg = ["-"] ->
  Forall (fun c => isDigit c = true) int -> int <> [] ->
  Forall (fun c => isDigit c = true) frac ->
  toNumber o (sg ++ int ++ decimalSeparator o :: frac ++ repeat "0" m)
  = toNumber o (sg ++ int ++ decimalSeparator o :: frac).
Proof.
  intros Hv Hlit Hminus Hs Hi Hne Hf.
  rewrite (toNumber_number_text o sg int (frac ++ repeat "0" m) Hv Hlit Hminus Hs Hi
             ltac:(apply Forall_app; split; [assumption | apply zeros_digits])).
  rewrite (toNumber_number_text o sg int frac Hv Hlit Hminus Hs Hi Hf).
  f_equal. unfold literalValue. destruct int as [|i int']; [contradiction|].
  apply decimalValue_trailing_zeros.
Qed.

Lemma toNumber_trailing_zeros_witness :
  toNumber defaultOptions (chars "12,5000") = toNumber defaultOptions (chars "12,5").
Proof.
  apply (toNumber_trailing_zeros defaultOptions [] (chars "12") (chars "5") 3);
    try reflexivity.
  - now left.
  - repeat constructor.
  - discriminate.
  - repeat constructor.
Defined.

(** ** Numbers in exponent notation *)

Lemma string_of_uint_digits d :
  Forall (fun c => isDigit c = true) (chars (DecimalString.NilEmpty.string_of_uint d)).
Proof. induction d; simpl; constructor; auto. Qed.

Lemma decimalOfN_digits m : Forall (fun c => isDigit c = true) (decimalOfN m).
Proof.
  unfold decimalOfN, DecimalString.NilZero.string_of_uint.
  generalize (N.to_uint m) as u. intros u.
  destruct u; try exact (string_of_uint_digits _).
  repeat constructor.
Qed.

Lemma Number_toString_exponent_form negative h t n :
  exponentNotation (Finite negative (h :: t) n) = true ->
  exists sc,
    Number_toString (Finite negative (h :: t) n)
    = signPrefix negative ++ h :: mantissaTail t
        ++ "e" :: sc :: decimalOfN (Z.to_N (Z.abs (n - 1)))
    /\ (sc = "-" \/ sc = "+").
Proof.
  unfold exponentNotation. intros He. apply negb_true_iff in He.
  unfold Number_toString.
  set (k := Z.of_nat (length (h :: t))).
  assert (Hk : (1 <= k)%Z) by (unfold k; cbn [length]; lia).
  assert (H1 : ((k <=? n) && (n <=? 21))%Z = false).
  { destruct (Z.leb_spec k n), (Z.leb_spec n 21); try reflexivity.
    destruct (Z.ltb_spec (-6) n); [discriminate | lia]. }
  assert (H2 : ((0 <? n) && (n <=? 21))%Z = false).
  { destruct (Z.ltb_spec 0 n), (Z.leb_spec n 21); try reflexivity.
    destruct (Z.ltb_spec (-6) n); [discriminate | lia]. }
  assert (H3 : ((-6 <? n) && (n <=? 0))%Z = false).
  { destruct (Z.ltb_spec (-6) n), (Z.leb_spec n 0); try reflexivity.
    destruct (Z.leb_spec n 21); [discriminate | lia]. }
  rewrite H1, H2, H3.
  exists (if (n - 1 <? 0)%Z then "-" else "+"). split.
  - destruct t; reflexivity.
  - destruct (n - 1 <? 0)%Z; auto.
Qed.

Lemma Number_toString_mantissa negative h t :
  Number_toString (Finite negative (h :: t) 1)
  = signPrefix negative ++ h :: mantissaTail t.
Proof.
  unfold Number_toString. destruct t as [|t0 t']; [reflexivity|].
  assert (Hk : (Z.of_nat (length (h :: t0 :: t')) <=? 1)%Z = false).
  { apply Z.leb_gt. cbn [length]. lia. }
  rewrite Hk. reflexivity.
Qed.

(** The parts that [toString] works on, for a text made of a sign, one
    digit, the mantissa tail and a rest that cannot continue the number. *)
Lemma decompose_mantissa o negative h t rest :
  isDigit (decimalSeparator o) = false ->
  isDigit h = true -> Forall (fun c => isDigit c = true) t ->
  Forall (fun c => (c =? ".") = false) rest ->
  stopsNumber (decimalSeparator o) (match t with [] => false | _ :: _ => true end) rest ->
  decompose (decimalSeparator o)
    (String_replaceChar (signPrefix negative ++ h :: mantissaTail t ++ rest) "."
       (decimalSeparator o))
  = {| sign := signPrefix negative; integerDigits := [h];
       hasSeparator := match t with [] => false | _ :: _ => true end;
       fractionDigits := t |}.
Proof.
  intros Hd Hh Ht Hrest Hstop.
  assert (Hpre : Forall (fun c => (c =? ".") = false) (signPrefix negative ++ [h])).
  { apply Forall_app; split; [destruct negative; repeat constructor|].
    constructor; [|constructor]. exact (class_neq isDigit h "." Hh eq_refl). }
  assert (Hsign : signPrefix negative = ["-"]
                  \/ (signPrefix negative = []
                      /\ forall s, String_startsWith ([h] ++ s) "-" = false)).
  { destruct negative; [now left|right]. split; [reflexivity|].
    intros s. cbn. exact (class_neq isDigit h "-" Hh eq_refl). }
  destruct t as [|t0 t'].
  - cbn [mantissaTail app].
    change (signPrefix negative ++ h :: rest) with (signPrefix negative ++ [h] ++ rest).
    rewrite app_assoc.
    rewrite replaceChar_absent by (apply Forall_app; split; assumption).
    rewrite <- app_assoc.
    apply (decompose_parts_rest (decimalSeparator o) (signPrefix negative) [h] false [] rest);
      [ destruct Hsign as [E|[E Hs]]; [now left | right; split; [exact E | apply Hs]]
      | repeat constructor; assumption
      | constructor
      | assumption
      | reflexivity
      | assumption ].
  - cbn [mantissaTail].
    change (signPrefix negative ++ h :: ("." :: t0 :: t') ++ rest)
      with (signPrefix negative ++ [h] ++ "." :: (t0 :: t') ++ rest).
    rewrite app_assoc. rewrite replaceChar_first by assumption.
    rewrite <- app_assoc.
    apply (decompose_parts_rest (decimalSeparator o) (signPrefix negative) [h] true
             (t0 :: t') rest);
      [ destruct Hsign as [E|[E Hs]]; [now left | right; split; [exact E | apply Hs]]
      | repeat constructor; assumption
      | assumption
      | assumption
      | discriminate
      | assumption ].
Qed.

Lemma toString_exponent_mantissa o negative h t n :
  validConfiguration o = true ->
  ClassLiteral (decimalSeparator o) = true ->
  (decimalSeparator o =? "e") = false ->
  canonical (Finite negative (h :: t) n) = true ->
  exponentNotation (Finite negative (h :: t) n) = true ->
  toString o (Finite negative (h :: t) n) = toString o (Finite negative (h :: t) 1).
Proof.
  intros Hv Hcl He Hc Hx.
  destruct (valid_separators o Hv) as (_ & Hd & _).
  destruct (canonical_digits _ _ _ Hc) as (Hds & _ & _).
  inversion Hds as [|? ? Hh Ht]; subst.
  rewrite !(toString_steps o _ Hcl).
  assert (Hdec : decompose (decimalSeparator o)
                   (valueAsString o (Finite negative (h :: t) n))
                 = decompose (decimalSeparator o)
                     (valueAsString o (Finite negative (h :: t) 1))).
  { unfold valueAsString. cbn [app].
    destruct (Number_toString_exponent_form negative h t n Hx) as (sc & -> & Hsc).
    rewrite Number_toString_mantissa.
    rewrite (decompose_mantissa o negative h t _ Hd Hh Ht).
    - rewrite <- (app_nil_r (mantissaTail t)) at 1.
      rewrite (decompose_mantissa o negative h t [] Hd Hh Ht); [reflexivity | constructor|].
      destruct t; exact I.
    - constructor; [reflexivity|]. constructor.
      + destruct Hsc as [->| ->]; reflexivity.
      + eapply Forall_impl; [|apply decimalOfN_digits].
        intros c Hcd. exact (class_neq isDigit c "." Hcd eq_refl).
    - cbn [stopsNumber]. split; [reflexivity|]. intros _.
      now rewrite Ascii.eqb_sym. }
  now rewrite Hdec.
Qed.

Lemma decompose_exponent o negative h t n :
  isDigit (decimalSeparator o) = false ->
  (decimalSeparator o =? "e") = false ->
  canonical (Finite negative (h :: t) n) = true ->
  exponentNotation (Finite negative (h :: t) n) = true ->
  decompose (decimalSeparator o) (valueAsString o (Finite negative (h :: t) n))
  = {| sign := signPrefix negative; integerDigits := [h];
       hasSeparator := match t with [] => false | _ :: _ => true end;
       fractionDigits := t |}.
Proof.
  intros Hd He Hc Hx.
  destruct (canonical_digits _ _ _ Hc) as (Hds & _ & _).
  inversion Hds as [|? ? Hh Ht]; subst.
  unfold valueAsString. cbn [app].
  destruct (Number_toString_exponent_form negative h t n Hx) as (sc & -> & Hsc).
  apply (decompose_mantissa o negative h t _ Hd Hh Ht).
  - constructor; [reflexivity|]. constructor.
    + destruct Hsc as [->| ->]; reflexivity.
    + eapply Forall_impl; [|apply decimalOfN_digits].
      intros c Hcd. exact (class_neq isDigit c "." Hcd eq_refl).
  - cbn [stopsNumber]. split; [reflexivity|]. intros _.
    now rewrite Ascii.eqb_sym.
Qed.

Lemma toString_exponent_output o negative h t n :
  validConfiguration o = true ->
  literalPatterns o = true ->
  (decimalSeparator o =? "e") = false ->
  canonical (Finite negative (h :: t) n) = true ->
  exponentNotation (Finite negative (h :: t) n) = true ->
  toString o (Finite negative (h :: t) n)
  = Normal (signPrefix negative ++ h ::
              (if (0 <? precision o)%nat && (length t <? precision o)%nat
               then decimalSeparator o :: t ++ repeat "0" (precision o - length t)
               else match t with
                    | [] => []
                    | _ :: _ => decimalSeparator o :: t
                    end)).
Proof.
  intros Hv Hlit He Hc Hx.
  destruct (valid_separators o Hv) as (Hg & Hd & _).
  apply andb_true_iff in Hlit as [Hid Hcl].
  destruct (canonical_digits _ _ _ Hc) as (Hds & _ & _).
  inversion Hds as [|? ? Hh Ht]; subst.
  rewrite (toString_steps o _ Hcl). cbv zeta.
  rewrite (decompose_exponent o negative h t n Hd He Hc Hx).
  cbn [sign integerDigits].
  rewrite (groupedInteger_join o [h] Hg Hid); [|now constructor | discriminate].
  unfold fractionText, separatorText. cbn [fractionDigits hasSeparator rev joinEvery3 app].
  destruct ((0 <? precision o)%nat && (length t <? precision o)%nat).
  - reflexivity.
  - destruct t; reflexivity.
Qed.

(** X10.  On a valid configuration whose separators stand for themselves in
    the derived patterns and whose decimal separator is not the letter e,
    [toString] silently drops the exponent of a number whose host
    representation uses exponent notation: the output is the sign, the first
    digit and, after the decimal separator, the remaining digits of the
    mantissa as the host prints them, padded with zeros up to [precision];
    no separator is written when there are no more digits and nothing to
    pad. *)
Theorem toString_drops_exponent o negative h t n :
  validConfiguration o = true ->
  literalPatterns o = true ->
  (decimalSeparator o =? "e") = false ->
  canonical (Finite negative (h :: t) n) = true ->
  exponentNotation (Finite negative (h :: t) n) = true ->
  toString o (Finite negative (h :: t) n)
  = Normal (signPrefix negative ++ h ::
              (if (0 <? precision o)%nat && (length t <? precision o)%nat
               then decimalSeparator o :: t ++ repeat "0" (precision o - length t)
               else match t with
                    | [] => []
                    | _ :: _ => decimalSeparator o :: t
                    end)).
Proof.
  exact (toString_exponent_output o negative h t n).
Qed.

Lemma toString_drops_exponent_witness :
  toString defaultOptions (Finite false (chars "10000000000000006") 23)
  = Normal (chars "1,0000000000000006").
Proof.
  apply (toString_drops_exponent defaultOptions false "1"
           (chars "0000000000000006") 23);
    vm_compute; reflexivity.
Defined.


(** ** When the methods raise *)

Lemma extractionRegex_cases o :
  (decimalSeparator o = "]" /\ extractionRegex o = emptyClassGroups)
  \/ (decimalSeparator o = "\" /\ exists cls, extractionRegex o = threeGroups cls)
  \/ (decimalSeparator o <> "]" /\ decimalSeparator o <> "\"
      /\ exists sep, extractionRegex o = fourGroups sep).
Proof.
  unfold extractionRegex.
  destruct (Ascii.eqb_spec (decimalSeparator o) "]") as [E1|E1]; [left; now split|].
  destruct (Ascii.eqb_spec (decimalSeparator o) "^") as [E2|E2].
  { right; right. repeat split; try assumption.
    - rewrite E2. discriminate.
    - now exists anyChar. }
  destruct (Ascii.eqb_spec (decimalSeparator o) "\") as [E3|E3].
  - right; left. split; [assumption|]. eexists. reflexivity.
  - right; right. repeat split; try assumption. eexists. reflexivity.
Qed.

Lemma execAt_emptyClassGroups prev s : execAt emptyClassGroups prev s = None.
Proof.
  destruct (execAt emptyClassGroups prev s) as [r|] eqn:E; [exfalso | reflexivity].
  unfold execAt, emptyClassGroups in E. cbn [matchPieces] in E.
  apply matchTerms_inv in E as (m1 & p1 & s1 & _ & E). cbv beta in E.
  apply matchTerms_inv in E as (m2 & p2 & s2 & _ & E). cbv beta in E.
  cbn [matchTerms matchTerm] in E. unfold noChar in E.
  destruct s2; discriminate.
Qed.

Lemma String_match_emptyClassGroups s : String_match s emptyClassGroups = None.
Proof.
  unfold String_match. generalize (@None ascii) as prev.
  induction s as [|c s IH]; intros prev; cbn [searchFrom];
    rewrite execAt_emptyClassGroups; [reflexivity | apply IH].
Qed.

Lemma String_match_fourGroups sep s :
  exists m a b c e,
    String_match s (fourGroups sep) = Some m /\ captures m = [a; b; c; e].
Proof.
  unfold String_match.
  destruct s as [|x s']; cbn [searchFrom]; rewrite execAt_fourGroups;
    do 5 eexists; split; reflexivity.
Qed.

Lemma String_match_threeGroups cls s :
  exists m a b c,
    String_match s (threeGroups cls) = Some m /\ captures m = [a; b; c].
Proof.
  assert (H : forall prev s, exists r a b c,
               execAt (threeGroups cls) prev s = Some r /\ captures r = [a; b; c]).
  { intros prev t. unfold execAt, threeGroups. cbn [matchPieces matchTerms].
    do 4 eexists. split.
    - apply optional_greedy. apply star_greedy. apply star_greedy. reflexivity.
    - reflexivity. }
  unfold String_match.
  destruct (H None s) as (r & a & b & c & Hr & Hc).
  exists r, a, b, c. split; [|exact Hc].
  destruct s; cbn [searchFrom]; now rewrite Hr.
Qed.

(** X11.  [toNumber] raises exactly when the decimal separator is the
    closing bracket and the input is not empty; for every other
    configuration, whatever its separators, and for the empty input it
    returns a number. *)
Theorem toNumber_raises_iff o value :
  toNumber o value = Throw TypeError
  <-> decimalSeparator o = "]" /\ value <> [].
Proof.
  destruct value as [|x value'].
  { split; [discriminate | intros [_ H]; contradiction]. }
  unfold toNumber. set (stripped := String_replaceAll _ _ _).
  destruct (extractionRegex_cases o) as [[Ed ->]|[[Ed (cls & ->)]|(E1 & E2 & sep & ->)]].
  - rewrite String_match_emptyClassGroups. split; [intros _|reflexivity].
    split; [assumption | discriminate].
  - destruct (String_match_threeGroups cls stripped) as (m & a & b & c & -> & ->).
    cbn [hd_error tryCatch]. split; [discriminate|].
    intros [H _]. rewrite Ed in H. discriminate.
  - destruct (String_match_fourGroups sep stripped) as (m & a & b & c & e & -> & ->).
    cbn [hd_error tryCatch]. split; [discriminate|].
    intros [H _]. contradiction.
Qed.

(** X12.  For a [precision] below 2^32, the length from which the host
    refuses to create the array of zeros, [toString] raises exactly when the
    decimal separator is the closing bracket, or is the backslash while
    [precision] is positive; for every other configuration it returns a
    string for every number, finite or not. *)
Theorem toString_raises_iff o x :
  (Z.of_nat (precision o) < 2 ^ 32)%Z ->
  (toString o x = Throw TypeError
   <-> decimalSeparator o = "]" \/ (decimalSeparator o = "\" /\ 0 < precision o))
  /\ (toString o x <> Throw TypeError -> exists s, toString o x = Normal s).
Proof.
  intros _. split.
  2: { destruct (toString o x) as [s|[]]; [now exists s | intros H; now elim H]. }
  unfold toString.
  set (source := if strictEquals x (Zero false) then _ else _).
  destruct (extractionRegex_cases o) as [[Ed ->]|[[Ed (cls & ->)]|(E1 & E2 & sep & ->)]].
  - rewrite String_match_emptyClassGroups. split; [now left | reflexivity].
  - destruct (String_match_threeGroups cls source) as (m & a & b & c & -> & ->).
    cbn [hd_error]. destruct (precision o) as [|n].
    + cbn [bind]. split; [discriminate|].
      intros [H|[_ H]]; [rewrite Ed in H; discriminate | lia].
    + cbn [bind String_length]. split; [intros _|reflexivity].
      right. split; [assumption | lia].
  - destruct (String_match_fourGroups sep source) as (m & a & b & c & e & -> & ->).
    cbn [hd_error]. split.
    + destruct (precision o) as [|n]; cbn [bind String_length].
      * discriminate.
      * destruct (length e <? S n)%nat; cbn [bind String_length]; discriminate.
    + intros [H|[H _]]; contradiction.
Qed.

Lemma toString_raises_iff_witness :
  (toString (backslashOptions 2) (Finite false (chars "123") 3) = Throw TypeError
   <-> decimalSeparator (backslashOptions 2) = "]"
       \/ (decimalSeparator (backslashOptions 2) = "\"
           /\ 0 < precision (backslashOptions 2)))
  /\ (toString (backslashOptions 2) (Finite false (chars "123") 3) <> Throw TypeError ->
      exists s, toString (backslashOptions 2) (Finite false (chars "123") 3) = Normal s).
Proof.
  apply (toString_raises_iff (backslashOptions 2) (Finite false (chars "123") 3)).
  vm_compute. reflexivity.
Defined.

Lemma StringToNumber_mantissa negative h t n :
  canonical (Finite negative (h :: t) n) = true ->
  StringToNumber (signPrefix negative ++ h :: mantissaTail t)
  = Finite negative (h :: t) 1.
Proof.
  intros Hc.
  destruct (canonical_digits _ _ _ Hc) as (Hds & _ & _).
  inversion Hds as [|? ? Hh Ht]; subst.
  assert (Hv : literalValue negative [h]
                 (match t with [] => false | _ :: _ => true end) t
               = Finite negative (h :: t) 1).
  { unfold literalValue.
    rewrite (decimalValue_padded negative [h] t (h :: t) n 0 0 Hc).
    - reflexivity.
    - cbn [repeat app]. now rewrite app_nil_r. }
  assert (Ht' : signPrefix negative ++ h :: mantissaTail t
                = signPrefix negative ++ [h]
                    ++ (if match t with [] => false | _ :: _ => true end
                        then ["."] else []) ++ t).
  { destruct t; reflexivity. }
  rewrite Ht'.
  rewrite StringToNumber_canonical.
  - destruct negative; cbn [signPrefix]; exact Hv.
  - destruct negative; [now right | now left].
  - now constructor.
  - exact Ht.
  - destruct t; [reflexivity | discriminate].
Qed.

(** X13.  On a valid configuration whose group separator is not the minus
    sign, whose separators stand for themselves and whose decimal separator
    is not the letter e, formatting a number in exponent notation and parsing
    the result does not give the number back: it gives what the host
    conversion makes of the mantissa text, the sign, the first digit and,
    after a point, the remaining digits. *)
Theorem roundTrip_of_exponent_notation o negative h t n :
  validConfiguration o = true ->
  literalPatterns o = true ->
  (groupSeparator o =? "-") = false ->
  (decimalSeparator o =? "e") = false ->
  canonical (Finite negative (h :: t) n) = true ->
  exponentNotation (Finite negative (h :: t) n) = true ->
  exists s,
    toString o (Finite negative (h :: t) n) = Normal s
    /\ toNumber o s
       = Normal (StringToNumber (signPrefix negative ++ h :: mantissaTail t))
    /\ toNumber o s <> Normal (Finite negative (h :: t) n).
Proof.
  intros Hv Hlit Hminus He Hc Hx.
  destruct (valid_separators o Hv) as (Hg & Hd & Hgd).
  pose proof Hlit as Hlit'. apply andb_true_iff in Hlit' as [_ Hcl].
  destruct (roundTrip o (Finite negative (h :: t) 1) Hg Hd Hgd Hminus Hlit
              eq_refl Hc eq_refl) as (s & Hs & Hn).
  exists s. split; [|split].
  - now rewrite (toString_exponent_mantissa o negative h t n Hv Hcl He Hc Hx).
  - rewrite Hn. now rewrite (StringToNumber_mantissa negative h t n Hc).
  - rewrite Hn. intros E. injection E as <-. discriminate Hx.
Qed.

Lemma roundTrip_of_exponent_notation_witness :
  exists s,
    toString defaultOptions oneSextillion = Normal s
    /\ toNumber defaultOptions s = Normal (StringToNumber (chars "1"))
    /\ toNumber defaultOptions s <> Normal oneSextillion.
Proof.
  apply (roundTrip_of_exponent_notation defaultOptions false "1" [] 22);
    vm_compute; reflexivity.
Defined.
